(** * The Zipf benchmark of [bench/zipf.go]

    A shallow embedding of [getZipfOffset], [Zipf.Init] and [Zipf.Run],
    and the properties of the workload driver that follow from the code.

    Conventions
    - Go's [int64], [uint64] and [int] are integers of [Z] with the
      wrap-around written out (module [Int64]).
    - Go's [float64] is the primitive binary64 type [float].
    - Go's [error] is its message, a [string]; [nil] is [None].
    - Everything the file calls but does not define (the Go standard
      library, the Pilosa client, the rest of package [bench]) is either a
      field of the class [Library] (deterministic code) or of the record
      [World] (network and clock). *)

From Stdlib Require Import ZArith Floats Uint63 DecimalString Lia.
From Stdlib Require DecimalPos DecimalZ.
From stdpp Require Import gmap strings list.

Open Scope Z_scope.

(** ** Machine integers *)

Module Int64.

Definition min : Z := - 2 ^ 63.
Definition max : Z := 2 ^ 63 - 1.

Definition in_range (z : Z) : Prop := min <= z <= max.

(** Two's complement: the value of the low 64 bits, read as signed. *)
Definition wrap (z : Z) : Z := (z + 2 ^ 63) mod 2 ^ 64 - 2 ^ 63.

Definition add (a b : Z) : Z := wrap (a + b).
Definition sub (a b : Z) : Z := wrap (a - b).

(** The conversion [uint64(x)] of an [int64]. *)
Definition to_uint64 (z : Z) : Z := z mod 2 ^ 64.

(** The conversion [int64(x)] of a [uint64]. *)
Definition of_uint64 (u : Z) : Z := wrap u.

(** The conversion [float64(x)] of an [int64]: the nearest binary64,
    ties to even.  [of_uint63] covers [0 .. 2^63 - 1]; the one remaining
    magnitude, [2^63], is a power of two. *)
Definition to_float64 (z : Z) : float :=
  let mag (n : Z) : float :=
    if n =? 2 ^ 63
    then PrimFloat.mul (PrimFloat.of_uint63 (Uint63.of_Z (2 ^ 62))) 2%float
    else PrimFloat.of_uint63 (Uint63.of_Z n) in
  if z <? 0 then PrimFloat.opp (mag (- z)) else mag z.

(** [time.Time.Sub] saturates at the ends of [Duration], an [int64]. *)
Definition saturate (z : Z) : Z := Z.max min (Z.min max z).

End Int64.

(** ** Values shared by the model *)

Inductive value : Type :=
| VError (msg : string)      (* an [error] value *)
| VString (s : string)
| VInt (n : Z)
| VFloat (f : float).

(** Modelled from the spec: the statistics accumulator of package [bench]
    ([NewStats], [Stats.Add]) is not part of this file; the spec calls it a
    running latency accumulator, so it is the durations added, in order. *)
Definition Stats : Type := list Z.
Definition NewStats : Stats := [].
Definition Stats_Add (s : Stats) (d : Z) : Stats := s ++ [d].

(** [context.Context], as far as a caller can observe it: [ctx.Err()] is
    [nil] until the context is cancelled or its deadline has passed. *)
Record Context : Type := { ctx_Err : option string }.

(** How a call ends: it returns, or it panics. *)
Inductive Res (A : Type) : Type :=
| Ok (a : A)
| Panic (msg : string).
Arguments Ok {A} a.
Arguments Panic {A} msg.

(** The two id domains of the benchmark: rows (bitmaps) and columns
    (profiles). *)
Inductive Domain : Type := Bitmap | Profile.

(** ** What the file imports

    [Pow] is [math.Pow].  [Rand] is the state of a [*rand.Rand];
    [rand_New seed] is [rand.New(rand.NewSource(seed))].
    [Zipf_Uint64 q v imax r] is one call of [Uint64] on a [rand.Zipf]
    generator built with exponent [q], offset [v] and bound [imax] whose
    stream is in state [r]: the value drawn and the state of the stream
    after it.  [permute N seed] is the bijection a [PermutationGenerator]
    realises (see below).  [Client] is the type behind [HasClient.client].
    [AddToResults] is package [bench]'s function of that name. *)

Class Library : Type := {
  Pow : float -> float -> float;
  Rand : Type;
  rand_New : Z -> Rand;
  Zipf_Uint64 : float -> float -> Z -> Rand -> Z * Rand;
  permute : Z -> Z -> Z -> Z;
  Client : Type;
  AddToResults : Stats -> gmap string value -> gmap string value
}.

(** The documented contract of [rand.Zipf]: values [k] in [[0, imax]]. *)
Definition ZipfContract `{L : Library} : Prop :=
  forall q v imax r, 0 <= imax -> 0 <= (Zipf_Uint64 q v imax r).1 <= imax.

Section Model.
Context `{L : Library}.

(** ** [getZipfOffset] (zipf.go, lines 43-46) *)

Definition getZipfOffset (N : Z) (exp ratio : float) : float :=
  let z := Pow ratio (PrimFloat.div 1%float exp) in
  PrimFloat.div
    (PrimFloat.mul z (Int64.to_float64 (Int64.sub N 1)))
    (PrimFloat.sub 1%float z).

(** ** The generators *)

(** A [*rand.Rand] is a pointer: [loc] is an index into the heap of
    streams, so that two generators can share one stream. *)
Definition loc : Type := nat.

(** [rand.Zipf]: the stream it draws from and its parameters. *)
Record rand_Zipf : Type := {
  z_r : loc;
  z_q : float;
  z_v : float;
  z_imax : Z
}.

(** [rand.NewZipf] of the Go standard library returns [nil] unless
    [s > 1] and [v >= 1]. *)
Definition NewZipf (r : loc) (s v : float) (imax : Z) : option rand_Zipf :=
  if (PrimFloat.leb s 1%float || PrimFloat.ltb v 1%float)%bool then None
  else Some {| z_r := r; z_q := s; z_v := v; z_imax := imax |}.

(** Modelled from the spec: [PermutationGenerator] is defined elsewhere in
    package [bench].  Section 4.3: it owns a domain size and a seed and maps
    a rank to an id with a fixed bijection of [[0, N)]; construction fails
    if [N < 1]; a rank outside [[0, N)] fails with an out-of-range error.
    The call sites in this file receive one value from each of
    [NewPermutationGenerator] and [Next], so a failed construction is the
    [nil] pointer and a failed [Next] is a panic; both are [None] here. *)
Record PermutationGenerator : Type := { pg_N : Z; pg_seed : Z }.

Definition NewPermutationGenerator (N seed : Z) : option PermutationGenerator :=
  if N <? 1 then None else Some {| pg_N := N; pg_seed := seed |}.

Definition Next (p : PermutationGenerator) (rank : Z) : option Z :=
  if ((0 <=? rank) && (rank <? pg_N p))%bool
  then Some (permute (pg_N p) (pg_seed p) rank)
  else None.

(** ** The benchmark object (zipf.go, lines 14-34) *)

(** The embedded [HasClient]; only its [client] field is used here. *)
Record HasClient : Type := { client : option Client }.

Record Zipf : Type := {
  hasClient : HasClient;
  Name : string;
  BaseBitmapID : Z;
  BaseProfileID : Z;
  BitmapIDRange : Z;
  ProfileIDRange : Z;
  Iterations : Z;
  Seed : Z;
  Index : string;
  Frame : string;
  BitmapExponent : float;
  BitmapRatio : float;
  ProfileExponent : float;
  ProfileRatio : float;
  Operation : string;
  bitmapRng : option rand_Zipf;
  profileRng : option rand_Zipf;
  bitmapPerm : option PermutationGenerator;
  profilePerm : option PermutationGenerator
}.

Definition set_hasClient (b : Zipf) (x : HasClient) : Zipf :=
  let 'Build_Zipf _ nm bb bp br pr it sd ix fr be bra pe pra op g1 g2 p1 p2 := b in
  Build_Zipf x nm bb bp br pr it sd ix fr be bra pe pra op g1 g2 p1 p2.

Definition set_Name (b : Zipf) (x : string) : Zipf :=
  let 'Build_Zipf hc _ bb bp br pr it sd ix fr be bra pe pra op g1 g2 p1 p2 := b in
  Build_Zipf hc x bb bp br pr it sd ix fr be bra pe pra op g1 g2 p1 p2.

Definition set_Seed (b : Zipf) (x : Z) : Zipf :=
  let 'Build_Zipf hc nm bb bp br pr it _ ix fr be bra pe pra op g1 g2 p1 p2 := b in
  Build_Zipf hc nm bb bp br pr it x ix fr be bra pe pra op g1 g2 p1 p2.

Definition set_bitmapRng (b : Zipf) (x : option rand_Zipf) : Zipf :=
  let 'Build_Zipf hc nm bb bp br pr it sd ix fr be bra pe pra op _ g2 p1 p2 := b in
  Build_Zipf hc nm bb bp br pr it sd ix fr be bra pe pra op x g2 p1 p2.

Definition set_profileRng (b : Zipf) (x : option rand_Zipf) : Zipf :=
  let 'Build_Zipf hc nm bb bp br pr it sd ix fr be bra pe pra op g1 _ p1 p2 := b in
  Build_Zipf hc nm bb bp br pr it sd ix fr be bra pe pra op g1 x p1 p2.

Definition set_bitmapPerm (b : Zipf) (x : option PermutationGenerator) : Zipf :=
  let 'Build_Zipf hc nm bb bp br pr it sd ix fr be bra pe pra op g1 g2 _ p2 := b in
  Build_Zipf hc nm bb bp br pr it sd ix fr be bra pe pra op g1 g2 x p2.

Definition set_profilePerm (b : Zipf) (x : option PermutationGenerator) : Zipf :=
  let 'Build_Zipf hc nm bb bp br pr it sd ix fr be bra pe pra op g1 g2 p1 _ := b in
  Build_Zipf hc nm bb bp br pr it sd ix fr be bra pe pra op g1 g2 p1 x.

(** ** The outside world

    [initIndex] and [HasClient.Init] belong to package [bench] and talk to
    the server; [ExecuteQuery] is the client's method; [time_Now] is the
    clock.  The first argument of [ExecuteQuery] and of [time_Now] is the
    number of earlier calls, so that an answer may depend on when it is
    asked. *)
Record World : Type := {
  initIndex : string -> string -> string -> option string;
  HasClient_Init : list string -> Z -> HasClient -> HasClient * option string;
  ExecuteQuery : nat -> Client -> Context -> string -> string -> bool -> option string;
  time_Now : nat -> Z
}.

(** One entry per call that leaves the function, with what came back. *)
Inductive Event : Type :=
| EvRandNew (seed : Z)
| EvNewZipf (d : Domain) (s v : float) (imax : Z)
| EvNewPermutationGenerator (d : Domain) (N seed : Z)
| EvInitIndex (host index frame : string) (err : option string)
| EvPrintln (msg : string)
| EvHasClientInit (hosts : list string) (agentNum : Z) (err : option string)
| EvUint64 (d : Domain) (k : Z)
| EvNext (d : Domain) (N rank : Z)
| EvNow (t : Z)
| EvExecuteQuery (ctx : Context) (index query : string) (flag : bool)
                 (err : option string).

(** The state outside the benchmark object: the heap of random streams,
    the calls made so far, and how often the client and the clock have
    been asked. *)
Record Sys : Type := {
  heap : list Rand;
  trace : list Event;
  nexec : nat;
  nclock : nat
}.

(** ** A state monad with panics *)

Definition M (A : Type) : Type := Sys -> Res A * Sys.

Definition ret {A} (a : A) : M A := fun s => (Ok a, s).

Definition bind {A B} (m : M A) (k : A -> M B) : M B :=
  fun s => match m s with
           | (Ok a, s') => k a s'
           | (Panic msg, s') => (Panic msg, s')
           end.

Definition panic {A} (msg : string) : M A := fun s => (Panic msg, s).

Definition emit (ev : Event) : M unit :=
  fun s => (Ok tt, {| heap := heap s; trace := trace s ++ [ev];
                      nexec := nexec s; nclock := nclock s |}).

End Model.

Notation "x <~ m ;; k" := (bind m (fun x => k))
  (at level 100, m at next level, right associativity).
Notation "m ;;; k" := (bind m (fun _ => k))
  (at level 100, right associativity).

Section Operations.
Context `{L : Library}.

(** ** Calls into the libraries *)

(** [rand.New(rand.NewSource(seed))]: a fresh stream on the heap. *)
Definition rand_NewM (seed : Z) : M loc :=
  fun s => (Ok (length (heap s)),
            {| heap := heap s ++ [rand_New seed];
               trace := trace s ++ [EvRandNew seed];
               nexec := nexec s; nclock := nclock s |}).

Definition NewZipfM (d : Domain) (r : loc) (s v : float) (imax : Z)
  : M (option rand_Zipf) :=
  emit (EvNewZipf d s v imax) ;;; ret (NewZipf r s v imax).

Definition NewPermutationGeneratorM (d : Domain) (N seed : Z)
  : M (option PermutationGenerator) :=
  emit (EvNewPermutationGenerator d N seed) ;;;
  ret (NewPermutationGenerator N seed).

(** [z.Uint64()]: a [nil] generator panics; otherwise the draw advances
    the stream the generator points to.  A generator always points to a
    stream of the heap, [Init] allocating the stream before it builds the
    generators; the model panics on any other pointer. *)
Definition Uint64M (d : Domain) (z : option rand_Zipf) : M Z :=
  match z with
  | None => panic "rand: nil Zipf"
  | Some g =>
    fun s =>
      match heap s !! z_r g with
      | None => (Panic "invalid memory address or nil pointer dereference", s)
      | Some r =>
        let '(k, r') := Zipf_Uint64 (z_q g) (z_v g) (z_imax g) r in
        (Ok k, {| heap := <[z_r g := r']> (heap s);
                  trace := trace s ++ [EvUint64 d k];
                  nexec := nexec s; nclock := nclock s |})
      end
  end.

(** [p.Next(rank)]. *)
Definition NextM (d : Domain) (p : option PermutationGenerator) (rank : Z) : M Z :=
  match p with
  | None => panic "invalid memory address or nil pointer dereference"
  | Some g =>
    emit (EvNext d (pg_N g) rank) ;;;
    match Next g rank with
    | Some id => ret id
    | None => panic "rank out of range"
    end
  end.

Definition NowM (w : World) : M Z :=
  fun s => let t := time_Now w (nclock s) in
           (Ok t, {| heap := heap s; trace := trace s ++ [EvNow t];
                     nexec := nexec s; nclock := S (nclock s) |}).

Definition ExecuteQueryM (w : World) (c : Client) (ctx : Context)
    (index query : string) (flag : bool) : M (option string) :=
  fun s => let err := ExecuteQuery w (nexec s) c ctx index query flag in
           (Ok err, {| heap := heap s;
                       trace := trace s ++ [EvExecuteQuery ctx index query flag err];
                       nexec := S (nexec s); nclock := nclock s |}).

Definition initIndexM (w : World) (host index frame : string) : M (option string) :=
  let err := initIndex w host index frame in
  emit (EvInitIndex host index frame err) ;;; ret err.

Definition HasClient_InitM (w : World) (hosts : list string) (agentNum : Z)
    (h : HasClient) : M (HasClient * option string) :=
  let r := HasClient_Init w hosts agentNum h in
  emit (EvHasClientInit hosts agentNum r.2) ;;; ret r.

(** ** Text *)

Definition dquote : string := String (Ascii.ascii_of_nat 34) EmptyString.

(** The verb [%d] of [fmt] on an [int64]. *)
Definition fmt_d (z : Z) : string := NilZero.string_of_int (Z.to_int z).

(** zipf.go, line 63. *)
Definition unsupported_operation (op : string) : string :=
  "Unsupported operation: " +:+ dquote +:+ op +:+ dquote +:+
  " (must be " +:+ dquote +:+ "set" +:+ dquote +:+ " or " +:+
  dquote +:+ "clear" +:+ dquote +:+ ")".

(** zipf.go, line 94. *)
Definition Sprintf_query (operation frame : string) (rowID columnID : Z) : string :=
  operation +:+ "(frame='" +:+ frame +:+ "', rowID=" +:+ fmt_d rowID +:+
  ", columnID=" +:+ fmt_d columnID +:+ ")".

(** ** [Zipf.Init] (zipf.go, lines 50-71)

    The result is the benchmark object as [Init] leaves it and the error
    it returns. *)
Definition Init (w : World) (hosts : list string) (agentNum : Z) (b : Zipf)
  : M (Zipf * option string) :=
  let b := set_Name b "zipf" in
  let b := set_Seed b (Int64.add (Seed b) agentNum) in
  rnd <~ rand_NewM (Seed b) ;;
  let bitmapOffset :=
    getZipfOffset (BitmapIDRange b) (BitmapExponent b) (BitmapRatio b) in
  g1 <~ NewZipfM Bitmap rnd (BitmapExponent b) bitmapOffset
          (Int64.to_uint64 (Int64.sub (BitmapIDRange b) 1)) ;;
  let b := set_bitmapRng b g1 in
  let profileOffset :=
    getZipfOffset (ProfileIDRange b) (ProfileExponent b) (ProfileRatio b) in
  g2 <~ NewZipfM Profile rnd (ProfileExponent b) profileOffset
          (Int64.to_uint64 (Int64.sub (ProfileIDRange b) 1)) ;;
  let b := set_profileRng b g2 in
  p1 <~ NewPermutationGeneratorM Bitmap (BitmapIDRange b) (Seed b) ;;
  let b := set_bitmapPerm b p1 in
  p2 <~ NewPermutationGeneratorM Profile (ProfileIDRange b) (Int64.add (Seed b) 1) ;;
  let b := set_profilePerm b p2 in
  if (negb (String.eqb (Operation b) "set") &&
      negb (String.eqb (Operation b) "clear"))%bool
  then ret (b, Some (unsupported_operation (Operation b)))
  else
    match hosts with
    | [] => panic "index out of range [0] with length 0"
    | host0 :: _ =>
      err <~ initIndexM w host0 (Index b) (Frame b) ;;
      (match err with
       | Some e => emit (EvPrintln e)
       | None => ret tt
       end) ;;;
      r <~ HasClient_InitM w hosts agentNum (hasClient b) ;;
      ret (set_hasClient b r.1, r.2)
    end.

(** ** [Zipf.Run] (zipf.go, lines 74-105) *)

(** Lines 80-83. *)
Definition operation_of (op : string) : string :=
  if String.eqb op "clear" then "ClearBit" else "SetBit".

(** Lines 88-92: the two draws, then the two permutations. *)
Definition nextIDs (b : Zipf) : M (Z * Z) :=
  bitmapIDOriginal <~ Uint64M Bitmap (bitmapRng b) ;;
  profIDOriginal <~ Uint64M Profile (profileRng b) ;;
  bitmapID <~ NextM Bitmap (bitmapPerm b) (Int64.of_uint64 bitmapIDOriginal) ;;
  profID <~ NextM Profile (profilePerm b) (Int64.of_uint64 profIDOriginal) ;;
  ret (bitmapID, profID).

(** Line 94: the two sums, [b.BaseBitmapID+int64(bitmapID)] and
    [b.BaseProfileID+int64(profID)], and the text. *)
Definition absolute (b : Zipf) (ids : Z * Z) : Z * Z :=
  (Int64.add (BaseBitmapID b) (Int64.wrap ids.1),
   Int64.add (BaseProfileID b) (Int64.wrap ids.2)).

Definition query_of (operation : string) (b : Zipf) (ids : Z * Z) : string :=
  Sprintf_query operation (Frame b) (absolute b ids).1 (absolute b ids).2.

(** Lines 86-104: [n] is the number of iterations still to run, [s] the
    statistics so far. *)
Fixpoint Run_loop (w : World) (ctx : Context) (b : Zipf) (c : Client)
    (operation : string) (results : gmap string value)
    (n : nat) (s : Stats) : M (gmap string value) :=
  match n with
  | O => ret (AddToResults s results)
  | S n' =>
    ids <~ nextIDs b ;;
    let query := query_of operation b ids in
    start <~ NowM w ;;
    err <~ ExecuteQueryM w c ctx (Index b) query true ;;
    match err with
    | Some e => ret (<["error" := VString e]> results)
    | None =>
      t <~ NowM w ;;
      Run_loop w ctx b c operation results n'
        (Stats_Add s (Int64.saturate (t - start)))
    end
  end.

Definition Run (w : World) (ctx : Context) (b : Zipf) : M (gmap string value) :=
  let results : gmap string value := ∅ in
  match client (hasClient b) with
  | None => ret (<["error" := VError "No client set for Zipf"]> results)
  | Some c =>
    let operation := operation_of (Operation b) in
    Run_loop w ctx b c operation results (Z.to_nat (Iterations b)) NewStats
  end.

End Operations.

Section Streams.
Context `{L : Library}.

(** ** What a run sends, read off its trace *)

Record Call : Type := {
  call_ctx : Context;
  call_index : string;
  call_query : string;
  call_flag : bool;
  call_err : option string
}.

Definition exec_call (ev : Event) : option Call :=
  match ev with
  | EvExecuteQuery ctx i q f err =>
    Some {| call_ctx := ctx; call_index := i; call_query := q;
            call_flag := f; call_err := err |}
  | _ => None
  end.

Definition exec_calls (evs : list Event) : list Call := omap exec_call evs.
Definition exec_queries (evs : list Event) : list string :=
  call_query <$> exec_calls evs.
Definition exec_errors (evs : list Event) : list (option string) :=
  call_err <$> exec_calls evs.

(** ** The id stream, as the specification describes it (section 2)

    rank of the row sampler, rank of the column sampler (both from the one
    stream [r]), then each rank through its permutation.  The stream ends
    where a rank is outside its permutation's domain. *)
Fixpoint permutedRanks (g1 g2 : rand_Zipf) (p1 p2 : PermutationGenerator)
    (n : nat) (r : Rand) : list (Z * Z) :=
  match n with
  | O => []
  | S n' =>
    let '(k1, r1) := Zipf_Uint64 (z_q g1) (z_v g1) (z_imax g1) r in
    let '(k2, r2) := Zipf_Uint64 (z_q g2) (z_v g2) (z_imax g2) r1 in
    match Next p1 (Int64.of_uint64 k1), Next p2 (Int64.of_uint64 k2) with
    | Some i1, Some i2 => (i1, i2) :: permutedRanks g1 g2 p1 p2 n' r2
    | _, _ => []
    end
  end.

(** The absolute ids of a configuration: a function of the seed, the
    agent number, the two ranges, exponents, ratios and base ids, and the
    iteration count, and of nothing else. *)
Definition idSequence (b : Zipf) (agentNum : Z) : list (Z * Z) :=
  let seed := Int64.add (Seed b) agentNum in
  match
    NewZipf O (BitmapExponent b)
      (getZipfOffset (BitmapIDRange b) (BitmapExponent b) (BitmapRatio b))
      (Int64.to_uint64 (Int64.sub (BitmapIDRange b) 1)),
    NewZipf O (ProfileExponent b)
      (getZipfOffset (ProfileIDRange b) (ProfileExponent b) (ProfileRatio b))
      (Int64.to_uint64 (Int64.sub (ProfileIDRange b) 1)),
    NewPermutationGenerator (BitmapIDRange b) seed,
    NewPermutationGenerator (ProfileIDRange b) (Int64.add seed 1)
  with
  | Some g1, Some g2, Some p1, Some p2 =>
    absolute b <$>
      permutedRanks g1 g2 p1 p2 (Z.to_nat (Iterations b)) (rand_New seed)
  | _, _, _, _ => []
  end.

(** Two benchmark objects with the same configuration. *)
Definition same_config (b1 b2 : Zipf) : Prop :=
  Seed b1 = Seed b2 /\
  BitmapIDRange b1 = BitmapIDRange b2 /\
  ProfileIDRange b1 = ProfileIDRange b2 /\
  BitmapExponent b1 = BitmapExponent b2 /\
  BitmapRatio b1 = BitmapRatio b2 /\
  ProfileExponent b1 = ProfileExponent b2 /\
  ProfileRatio b1 = ProfileRatio b2 /\
  BaseBitmapID b1 = BaseBitmapID b2 /\
  BaseProfileID b1 = BaseProfileID b2 /\
  Iterations b1 = Iterations b2.

(** ** The state [Init] leaves behind

    Both samplers and both permutations are there, and the two samplers
    point to one stream, which is in state [r]. *)
Definition Ready (b : Zipf) (s : Sys) (g1 g2 : rand_Zipf)
    (p1 p2 : PermutationGenerator) (r : Rand) : Prop :=
  bitmapRng b = Some g1 /\ profileRng b = Some g2 /\
  bitmapPerm b = Some p1 /\ profilePerm b = Some p2 /\
  z_r g1 = z_r g2 /\ heap s !! z_r g1 = Some r.

(** Matching domain sizes: each sampler draws from [[0, N-1]] where [N] is
    the domain of its permutation. *)
Definition Matched (g : rand_Zipf) (p : PermutationGenerator) : Prop :=
  1 <= pg_N p <= Int64.max /\ z_imax g = pg_N p - 1.

Definition domainSize (b : Zipf) (d : Domain) : Z :=
  match d with
  | Bitmap => BitmapIDRange b
  | Profile => ProfileIDRange b
  end.

(** A draw within its domain; a rank within the domain of the permutation
    it is given to. *)
Definition rank_ok (b : Zipf) (ev : Event) : Prop :=
  match ev with
  | EvUint64 d k => 0 <= k <= domainSize b d - 1
  | EvNext d N rank => N = domainSize b d /\ 0 <= rank < N
  | _ => True
  end.

(** ** [Init], lines 51-60, as one step

    The benchmark object once the generators are in place, [rnd] being
    the new stream, and the calls made on the way. *)
Definition configured (b : Zipf) (agentNum : Z) (rnd : loc) : Zipf :=
  let seed := Int64.add (Seed b) agentNum in
  let b := set_Name b "zipf" in
  let b := set_Seed b seed in
  let b := set_bitmapRng b
    (NewZipf rnd (BitmapExponent b)
       (getZipfOffset (BitmapIDRange b) (BitmapExponent b) (BitmapRatio b))
       (Int64.to_uint64 (Int64.sub (BitmapIDRange b) 1))) in
  let b := set_profileRng b
    (NewZipf rnd (ProfileExponent b)
       (getZipfOffset (ProfileIDRange b) (ProfileExponent b) (ProfileRatio b))
       (Int64.to_uint64 (Int64.sub (ProfileIDRange b) 1))) in
  let b := set_bitmapPerm b (NewPermutationGenerator (BitmapIDRange b) seed) in
  set_profilePerm b (NewPermutationGenerator (ProfileIDRange b) (Int64.add seed 1)).

Definition construction_events (b : Zipf) (agentNum : Z) : list Event :=
  let seed := Int64.add (Seed b) agentNum in
  [ EvRandNew seed;
    EvNewZipf Bitmap (BitmapExponent b)
      (getZipfOffset (BitmapIDRange b) (BitmapExponent b) (BitmapRatio b))
      (Int64.to_uint64 (Int64.sub (BitmapIDRange b) 1));
    EvNewZipf Profile (ProfileExponent b)
      (getZipfOffset (ProfileIDRange b) (ProfileExponent b) (ProfileRatio b))
      (Int64.to_uint64 (Int64.sub (ProfileIDRange b) 1));
    EvNewPermutationGenerator Bitmap (BitmapIDRange b) seed;
    EvNewPermutationGenerator Profile (ProfileIDRange b) (Int64.add seed 1) ].

(** The calls of lines 65-70 on the first host [host0]. *)
Definition connection_events (w : World) (hosts : list string) (host0 : string)
    (agentNum : Z) (b : Zipf) : list Event :=
  let err := initIndex w host0 (Index b) (Frame b) in
  [EvInitIndex host0 (Index b) (Frame b) err] ++
  match err with Some e => [EvPrintln e] | None => [] end ++
  [EvHasClientInit hosts agentNum (HasClient_Init w hosts agentNum (hasClient b)).2].

(** The fields of type [int64] hold values of that type. *)
Definition well_typed (b : Zipf) : Prop :=
  Int64.in_range (Seed b) /\
  Int64.in_range (BitmapIDRange b) /\ Int64.in_range (ProfileIDRange b) /\
  Int64.in_range (BaseBitmapID b) /\ Int64.in_range (BaseProfileID b).

Definition valid_operation (op : string) : Prop := op = "set" \/ op = "clear".

(** The events a step added to the trace. *)
Definition extends (s s' : Sys) (evs : list Event) : Prop :=
  trace s' = trace s ++ evs.

Definition log (s : Sys) (evs : list Event) : Sys :=
  {| heap := heap s; trace := trace s ++ evs;
     nexec := nexec s; nclock := nclock s |}.

Definition allocated (s : Sys) (r : Rand) : Sys :=
  {| heap := heap s ++ [r]; trace := trace s;
     nexec := nexec s; nclock := nclock s |}.

(** The state outside the benchmark object after line 60. *)
Definition after_construction (b : Zipf) (agentNum : Z) (s : Sys) : Sys :=
  log (allocated s (rand_New (Int64.add (Seed b) agentNum)))
      (construction_events b agentNum).

Definition invalid_operation (op : string) : bool :=
  negb (String.eqb op "set") && negb (String.eqb op "clear").

(** The state outside the benchmark object after part of an iteration:
    the stream at [l] has moved to [r], [evs] has been logged, and the
    client and the clock have been asked [dexec] and [dclock] times. *)
Definition step_state (s : Sys) (l : loc) (r : Rand) (evs : list Event)
    (dexec dclock : nat) : Sys :=
  {| heap := <[l := r]> (heap s); trace := trace s ++ evs;
     nexec := (dexec + nexec s)%nat; nclock := (dclock + nclock s)%nat |}.

(** The query of an iteration, from the absolute ids. *)
Definition query_text (b : Zipf) (ids : Z * Z) : string :=
  Sprintf_query (operation_of (Operation b)) (Frame b) ids.1 ids.2.

(** A client whose [k]-th call from now (counted from 1) fails with [e],
    the calls before it succeeding; [base] is the number of calls made
    so far. *)
Definition fails_on_call (w : World) (c : Client) (base k : nat) (e : string)
  : Prop :=
  (forall j ctx i q f, (j < k - 1)%nat ->
     ExecuteQuery w (base + j) c ctx i q f = None) /\
  (forall ctx i q f, ExecuteQuery w (base + (k - 1)) c ctx i q f = Some e).

(** A client that does not look at the context it is given. *)
Definition ignores_context (w : World) (ctx1 ctx2 : Context) : Prop :=
  forall n c i q f,
    ExecuteQuery w n c ctx1 i q f = ExecuteQuery w n c ctx2 i q f.

(** Two states that differ in the trace only. *)
Definition same_but_trace (s1 s2 : Sys) : Prop :=
  heap s1 = heap s2 /\ nexec s1 = nexec s2 /\ nclock s1 = nclock s2.

Definition is_Ok {A} (r : Res A) : Prop :=
  match r with Ok _ => True | Panic _ => False end.

(** An action that calls neither the client nor the clock. *)
Definition quiet {A} (m : M A) : Prop :=
  forall s, exists evs,
    extends s (m s).2 evs /\ exec_calls evs = [] /\
    nexec (m s).2 = nexec s /\ nclock (m s).2 = nclock s.

(** An event with its context, if it has one, replaced. *)
Definition with_context (ctx : Context) (ev : Event) : Event :=
  match ev with
  | EvExecuteQuery _ i q f err => EvExecuteQuery ctx i q f err
  | _ => ev
  end.

(** An action that does not read the trace and calls neither the client
    nor the clock: on two states that differ in the trace only it does
    the same and logs the same. *)
Definition steady {A} (m : M A) : Prop :=
  forall s1 s2, same_but_trace s1 s2 ->
    exists evs,
      extends s1 (m s1).2 evs /\ extends s2 (m s2).2 evs /\
      exec_calls evs = [] /\
      (m s1).1 = (m s2).1 /\ same_but_trace (m s1).2 (m s2).2.

(** ** More of the loop *)

(** The stream after [n] iterations, two draws each. *)
Fixpoint advance (g1 g2 : rand_Zipf) (n : nat) (r : Rand) : Rand :=
  match n with
  | O => r
  | S n' =>
    let r1 := (Zipf_Uint64 (z_q g1) (z_v g1) (z_imax g1) r).2 in
    let r2 := (Zipf_Uint64 (z_q g2) (z_v g2) (z_imax g2) r1).2 in
    advance g1 g2 n' r2
  end.

(** The durations of [n] calls that return, the clock having been read
    [base] times before: each is the difference of the two readings
    around its call (lines 95 and 101). *)
Fixpoint durations (w : World) (base n : nat) : list Z :=
  match n with
  | O => []
  | S n' =>
    Int64.saturate (time_Now w (S base) - time_Now w base)
    :: durations w (S (S base)) n'
  end.

(** A client none of whose calls fails. *)
Definition always_succeeds (w : World) (c : Client) : Prop :=
  forall n ctx i q f, ExecuteQuery w n c ctx i q f = None.

(** What section 4.3 of the specification asks of the permutation: an
    id of the domain for every rank of the domain. *)
Definition PermuteRange : Prop :=
  forall N seed rank, 0 <= rank < N -> 0 <= permute N seed rank < N.

(** The id pairs within the windows of the two domains. *)
Definition in_window (b : Zipf) (ids : Z * Z) : Prop :=
  BaseBitmapID b <= ids.1 < BaseBitmapID b + BitmapIDRange b /\
  BaseProfileID b <= ids.2 < BaseProfileID b + ProfileIDRange b.

(** ** Text made of given characters *)

Fixpoint string_all (P : Ascii.ascii -> bool) (s : string) : bool :=
  match s with
  | EmptyString => true
  | String c s' => P c && string_all P s'
  end.

(** The characters [%d] prints: the sign and the ten digits. *)
Definition is_num_char (c : Ascii.ascii) : bool :=
  let n := Ascii.nat_of_ascii c in
  (n =? 45)%nat || ((48 <=? n)%nat && (n <=? 57)%nat).

End Streams.

(** ** A concrete library and world, to run the model on *)

Module Demo.

(** The cases [math.Pow] decides before its general algorithm:
    [Pow(x, 0) = Pow(1, y) = 1], [Pow(x, 1) = x], [Pow(x, 0.5) = Sqrt(x)];
    NaN stands for the general case, which is not modelled. *)
Definition Pow_cases (x y : float) : float :=
  if (PrimFloat.eqb y 0%float || PrimFloat.eqb x 1%float)%bool then 1%float
  else if PrimFloat.eqb y 1%float then x
  else if PrimFloat.eqb y 0.5%float then PrimFloat.sqrt x
  else PrimFloat.nan.

(** A stand-in for the random stream and the sampler: a linear
    congruential stream reduced to [[0, imax]].  It has the contract of
    [rand.Zipf] and none of its distribution. *)
Definition lcg_New (seed : Z) : Z := seed mod 2 ^ 31.

Definition lcg_Uint64 (q v : float) (imax : Z) (r : Z) : Z * Z :=
  (r mod (imax + 1), (1103515245 * r + 12345) mod 2 ^ 31).

(** A stand-in for the permutation: a rotation of [[0, N)] by the seed. *)
Definition rotate (N seed rank : Z) : Z := (rank + seed) mod N.

Definition count_only (s : Stats) (results : gmap string value)
  : gmap string value :=
  <["count" := VInt (Z.of_nat (length s))]> results.

Definition lib : Library := {|
  Pow := Pow_cases;
  Rand := Z;
  rand_New := lcg_New;
  Zipf_Uint64 := lcg_Uint64;
  permute := rotate;
  Client := string;
  AddToResults := count_only
|}.

(** A server that answers every call, except that the call number
    [failAt] (counted from 1; none for 0) fails. *)
Definition world (failAt : nat) (provisioning : option string) : World (L := lib) := {|
  initIndex := fun _ _ _ => provisioning;
  HasClient_Init := fun hosts _ _ =>
    ({| client := (hd_error hosts : option (Client (Library := lib))) |}, None);
  ExecuteQuery := fun n _ _ _ _ _ =>
    if Nat.eqb (S n) failAt then Some "connection refused" else None;
  time_Now := fun n => 1000 * Z.of_nat n
|}.

Definition config (operation : string) (ratio : float) (iterations : Z)
  : Zipf (L := lib) := {|
  hasClient := {| client := None |};
  Name := EmptyString;
  BaseBitmapID := 1000;
  BaseProfileID := 5000;
  BitmapIDRange := 100;
  ProfileIDRange := 50;
  Iterations := iterations;
  Seed := 42;
  Index := "i";
  Frame := "f";
  BitmapExponent := 2;
  BitmapRatio := ratio;
  ProfileExponent := 2;
  ProfileRatio := 0.25;
  Operation := operation;
  bitmapRng := None;
  profileRng := None;
  bitmapPerm := None;
  profilePerm := None
|}.

Definition boot : Sys (L := lib) :=
  {| heap := []; trace := []; nexec := O; nclock := O |}.

Definition background : Context := {| ctx_Err := None |}.
Definition cancelled : Context := {| ctx_Err := Some "context canceled" |}.

(** What [Init] on agent 1 leaves: the object, the error, the state. *)
Definition init_result (w : World (L := lib)) (hosts : list string)
    (cfg : Zipf (L := lib)) : Zipf (L := lib) * option string * Sys (L := lib) :=
  match Init w hosts 1 cfg boot with
  | (Ok (b, e), s) => (b, e, s)
  | (Panic _, s) => (cfg, None, s)
  end.

Definition connected (host : string) : HasClient (L := lib) :=
  {| client := (Some host : option (Client (Library := lib))) |}.

Definition quietWorld : World (L := lib) := world 0 None.

(** A server on which the index exists already and the third query
    fails. *)
Definition failing3 : World (L := lib) := world 3 (Some "index exists").

(** The scenario of the specification: the fifth call fails. *)
Definition failing5 : World (L := lib) := world 5 None.

Definition cfg4 : Zipf (L := lib) := config "set" 0.25 4.
Definition cfg10 : Zipf (L := lib) := config "set" 0.25 10.
Definition cfgFlip : Zipf (L := lib) := config "flip" 0.25 4.
Definition cfgRatioOne : Zipf (L := lib) := config "set" 1 4.

Definition initA := init_result quietWorld ["h"] cfg4.
Definition initB := init_result failing3 ["x"; "y"] cfg4.
Definition init10 := init_result failing5 ["h"] cfg10.
Definition initFlip := init_result quietWorld ["h"] cfgFlip.
Definition initRatioOne := init_result quietWorld ["h"] cfgRatioOne.

(** The generators [Init] builds for [cfg4] and [cfg10]. *)
Definition rowSampler : rand_Zipf :=
  {| z_r := O; z_q := 2; z_v := 99; z_imax := 99 |}.
Definition colSampler : rand_Zipf :=
  {| z_r := O; z_q := 2; z_v := 49; z_imax := 49 |}.
Definition rowPerm : PermutationGenerator :=
  {| pg_N := 100; pg_seed := 43 |}.
Definition colPerm : PermutationGenerator :=
  {| pg_N := 50; pg_seed := 44 |}.

(** A second benchmark object in the same process: agent 2, initialised
    after agent 1. *)
Definition initSecond : Zipf (L := lib) * option string * Sys (L := lib) :=
  match Init quietWorld ["h"] 2 cfg4 initA.2 with
  | (Ok (b, e), s) => (b, e, s)
  | (Panic _, s) => (cfg4, None, s)
  end.

Definition secondRowPerm : PermutationGenerator :=
  {| pg_N := 100; pg_seed := 44 |}.
Definition secondColPerm : PermutationGenerator :=
  {| pg_N := 50; pg_seed := 45 |}.
Definition secondRowSampler : rand_Zipf :=
  {| z_r := 1%nat; z_q := 2; z_v := 99; z_imax := 99 |}.
Definition secondColSampler : rand_Zipf :=
  {| z_r := 1%nat; z_q := 2; z_v := 49; z_imax := 49 |}.

(** A configuration whose exponent is too small for [rand.NewZipf], one
    whose two ranges are equal, and one whose row range is zero. *)
Definition cfgFlat : Zipf (L := lib) :=
  {| hasClient := {| client := None |}; Name := EmptyString;
     BaseBitmapID := 1000; BaseProfileID := 5000;
     BitmapIDRange := 100; ProfileIDRange := 50; Iterations := 4;
     Seed := 42; Index := "i"; Frame := "f";
     BitmapExponent := 1; BitmapRatio := 0.25;
     ProfileExponent := 2; ProfileRatio := 0.25;
     Operation := "set";
     bitmapRng := None; profileRng := None;
     bitmapPerm := None; profilePerm := None |}.

Definition cfgSquare : Zipf (L := lib) :=
  {| hasClient := {| client := None |}; Name := EmptyString;
     BaseBitmapID := 1000; BaseProfileID := 5000;
     BitmapIDRange := 50; ProfileIDRange := 50; Iterations := 4;
     Seed := 42; Index := "i"; Frame := "f";
     BitmapExponent := 2; BitmapRatio := 0.25;
     ProfileExponent := 2; ProfileRatio := 0.25;
     Operation := "set";
     bitmapRng := None; profileRng := None;
     bitmapPerm := None; profilePerm := None |}.

Definition cfgEmptyRange : Zipf (L := lib) :=
  {| hasClient := {| client := None |}; Name := EmptyString;
     BaseBitmapID := 1000; BaseProfileID := 5000;
     BitmapIDRange := 0; ProfileIDRange := 50; Iterations := 4;
     Seed := 42; Index := "i"; Frame := "f";
     BitmapExponent := 2; BitmapRatio := 0.25;
     ProfileExponent := 2; ProfileRatio := 0.25;
     Operation := "set";
     bitmapRng := None; profileRng := None;
     bitmapPerm := None; profilePerm := None |}.

Definition initFlat := init_result quietWorld ["h"] cfgFlat.

(** [Init] of agent [a] on a fresh process. *)
Definition init_as (a : Z) (cfg : Zipf (L := lib))
  : Zipf (L := lib) * option string * Sys (L := lib) :=
  match Init quietWorld ["h"] a cfg boot with
  | (Ok (b, e), s) => (b, e, s)
  | (Panic _, s) => (cfg, None, s)
  end.

Definition initSquare1 := init_as 1 cfgSquare.
Definition initSquare2 := init_as 2 cfgSquare.

(** An object that was given a client and never initialised. *)
Definition cfgClientOnly : Zipf (L := lib) := set_hasClient cfg4 (connected "h").

End Demo.

(** * Properties *)

(** ** Machine integers *)

Lemma Int64_wrap_in_range z : Int64.in_range z -> Int64.wrap z = z.
Proof.
  unfold Int64.in_range, Int64.wrap, Int64.min, Int64.max. intros Hz.
  rewrite Z.mod_small by lia. lia.
Qed.

Lemma Int64_wrap_range z : Int64.in_range (Int64.wrap z).
Proof.
  unfold Int64.in_range, Int64.wrap, Int64.min, Int64.max.
  pose proof (Z.mod_pos_bound (z + 2 ^ 63) (2 ^ 64)). lia.
Qed.

Lemma Int64_of_uint64_small k : 0 <= k <= Int64.max -> Int64.of_uint64 k = k.
Proof.
  intros Hk. apply Int64_wrap_in_range.
  unfold Int64.in_range, Int64.min, Int64.max in *. lia.
Qed.

Lemma Int64_pred_to_uint64 N :
  1 <= N <= Int64.max -> Int64.to_uint64 (Int64.sub N 1) = N - 1.
Proof.
  intros HN. unfold Int64.sub. rewrite Int64_wrap_in_range.
  - unfold Int64.to_uint64, Int64.max in *. apply Z.mod_small. lia.
  - unfold Int64.in_range, Int64.min, Int64.max in *. lia.
Qed.

(** ** [getZipfOffset] *)

Section OffsetFacts.
Context `{L : Library}.

(** C2.  For every domain size [N] (any [int64] but the least, where
    [N - 1] wraps), every exponent [e] and ratio [r], [getZipfOffset N e r]
    is [z * (N - 1) / (1 - z)] with [z = r ^ (1 / e)], the integer [N - 1]
    converted to binary64 and the arithmetic done in binary64, left to
    right. *)
Theorem getZipfOffset_formula (N : Z) (e r : float) :
  Int64.min < N <= Int64.max ->
  let z := Pow r (1 / e)%float in
  getZipfOffset N e r = (z * Int64.to_float64 (N - 1) / (1 - z))%float.
Proof.
  intros HN z. unfold getZipfOffset, Int64.sub.
  rewrite Int64_wrap_in_range; [reflexivity|].
  unfold Int64.in_range, Int64.min, Int64.max in *. lia.
Qed.

End OffsetFacts.

(** C2 at [N = 100], [e = 2], [r = 0.25]: [z = 0.5] and the offset is 99. *)
Lemma getZipfOffset_formula_witness :
  Int64.min < 100 <= Int64.max /\
  getZipfOffset (L := Demo.lib) 100 2 0.25 = 99%float.
Proof.
  split; [unfold Int64.min, Int64.max; lia|].
  rewrite (getZipfOffset_formula (L := Demo.lib) 100 2 0.25).
  - reflexivity.
  - unfold Int64.min, Int64.max; lia.
Defined.

(** ** [Init] *)

Section InitFacts.
Context `{L : Library}.

Lemma invalid_operation_false op :
  invalid_operation op = false <-> valid_operation op.
Proof.
  unfold invalid_operation, valid_operation.
  destruct (String.eqb_spec op "set"), (String.eqb_spec op "clear");
    simpl; intuition congruence.
Qed.

(** [Init], in one equation. *)
Lemma Init_eq (w : World) (hosts : list string) (a : Z) (b : Zipf) (s : Sys) :
  Init w hosts a b s =
  let b1 := configured b a (length (heap s)) in
  let s1 := after_construction b a s in
  if invalid_operation (Operation b)
  then (Ok (b1, Some (unsupported_operation (Operation b))), s1)
  else match hosts with
       | [] => (Panic "index out of range [0] with length 0", s1)
       | host0 :: _ =>
         let r := HasClient_Init w hosts a (hasClient b) in
         (Ok (set_hasClient b1 r.1, r.2),
          log s1 (connection_events w hosts host0 a b))
       end.
Proof.
  destruct b, s. unfold Init, after_construction, log, allocated,
    construction_events, connection_events, invalid_operation. cbn.
  unfold bind, NewZipfM, NewPermutationGeneratorM, rand_NewM, emit, ret, bind.
  cbn. destruct (_ && _)%bool; cbn.
  - rewrite <- !app_assoc. reflexivity.
  - destruct hosts as [|host0 hosts']; cbn.
    + unfold panic. rewrite <- !app_assoc. reflexivity.
    + unfold initIndexM, HasClient_InitM, bind, emit, ret. cbn.
      destruct (initIndex w host0 Index0 Frame0); cbn;
        rewrite <- !app_assoc; reflexivity.
Qed.

Lemma hasClient_set_hasClient (b : Zipf) (h : HasClient) :
  hasClient (set_hasClient b h) = h.
Proof. destruct b; reflexivity. Qed.

Lemma hasClient_configured (b : Zipf) (a : Z) (l : loc) :
  hasClient (configured b a l) = hasClient b.
Proof. destruct b; reflexivity. Qed.

(** C4, amended.  For every operation other than "set" and "clear", [Init]
    returns the error "Unsupported operation: ..." that quotes the value.
    It does so after the stream, the two samplers and the two permutation
    generators have been constructed (they are in the object [Init]
    leaves), and before the index is provisioned or the client is
    initialised: the construction calls are the only ones made. *)
Theorem Init_unsupported_operation (w : World) (hosts : list string) (a : Z)
    (b : Zipf) (s : Sys) :
  ~ valid_operation (Operation b) ->
  Init w hosts a b s =
    (Ok (configured b a (length (heap s)),
         Some (unsupported_operation (Operation b))),
     after_construction b a s) /\
  trace (after_construction b a s) = trace s ++ construction_events b a /\
  hasClient (configured b a (length (heap s))) = hasClient b.
Proof.
  intros Hop. rewrite Init_eq. cbv zeta.
  destruct (invalid_operation (Operation b)) eqn:E.
  - split; [reflexivity|]. split; [reflexivity|]. apply hasClient_configured.
  - apply invalid_operation_false in E. contradiction.
Qed.

(** C5, amended.  [Init] checks the operation and nothing else.  With a
    supported operation and at least one host it returns what
    [HasClient.Init] returns, whatever the ratios, the exponents and the
    id ranges are: the offsets computed from them go to [rand.NewZipf]
    unchecked. *)
Theorem Init_checks_operation_only (w : World) (hosts : list string)
    (host0 : string) (rest : list string) (a : Z) (b : Zipf) (s : Sys) :
  valid_operation (Operation b) ->
  hosts = host0 :: rest ->
  Init w hosts a b s =
    (Ok (set_hasClient (configured b a (length (heap s)))
           (HasClient_Init w hosts a (hasClient b)).1,
         (HasClient_Init w hosts a (hasClient b)).2),
     log (after_construction b a s) (connection_events w hosts host0 a b)).
Proof.
  intros Hop ->. rewrite Init_eq. cbv zeta.
  apply invalid_operation_false in Hop. rewrite Hop. reflexivity.
Qed.

(** C7.  Whatever [initIndex] returns, [Init] goes on: an error is printed
    and dropped, [HasClient.Init] is called next, and the error [Init]
    returns is the one [HasClient.Init] returns. *)
Theorem Init_provisioning_not_fatal (w : World) (hosts : list string)
    (host0 : string) (rest : list string) (a : Z) (b : Zipf) (s : Sys)
    (outcome : option string) :
  valid_operation (Operation b) ->
  hosts = host0 :: rest ->
  initIndex w host0 (Index b) (Frame b) = outcome ->
  exists b' s',
    Init w hosts a b s =
      (Ok (b', (HasClient_Init w hosts a (hasClient b)).2), s') /\
    hasClient b' = (HasClient_Init w hosts a (hasClient b)).1 /\
    trace s' =
      trace s ++ construction_events b a ++
      [EvInitIndex host0 (Index b) (Frame b) outcome] ++
      match outcome with Some e => [EvPrintln e] | None => [] end ++
      [EvHasClientInit hosts a (HasClient_Init w hosts a (hasClient b)).2].
Proof.
  intros Hop -> Hout. rewrite Init_eq. cbv zeta.
  apply invalid_operation_false in Hop. rewrite Hop.
  eexists _, _. split; [reflexivity|]. split.
  - apply hasClient_set_hasClient.
  - unfold connection_events. rewrite Hout.
    unfold after_construction, log, allocated. cbn [trace].
    rewrite <- !app_assoc. reflexivity.
Qed.

End InitFacts.

(** ** [Run] *)

Section RunFacts.
Context `{L : Library}.

Lemma Ready_step_state (b : Zipf) (s : Sys) g1 g2 p1 p2 r r' evs i j :
  Ready b s g1 g2 p1 p2 r ->
  Ready b (step_state s (z_r g1) r' evs i j) g1 g2 p1 p2 r'.
Proof.
  intros (H1 & H2 & H3 & H4 & H5 & H6). repeat split; try assumption.
  cbn. apply list_lookup_insert_eq. eapply lookup_lt_Some, H6.
Qed.

(** The four statements that open an iteration, on a state [Init] left. *)
Lemma nextIDs_Ready (b : Zipf) (s : Sys) g1 g2 p1 p2 r :
  Ready b s g1 g2 p1 p2 r ->
  nextIDs b s =
    let d1 := Zipf_Uint64 (z_q g1) (z_v g1) (z_imax g1) r in
    let d2 := Zipf_Uint64 (z_q g2) (z_v g2) (z_imax g2) d1.2 in
    let rk1 := Int64.of_uint64 d1.1 in
    let rk2 := Int64.of_uint64 d2.1 in
    let draws := [EvUint64 Bitmap d1.1; EvUint64 Profile d2.1;
                  EvNext Bitmap (pg_N p1) rk1] in
    match Next p1 rk1 with
    | None => (Panic "rank out of range",
               step_state s (z_r g1) d2.2 draws 0 0)
    | Some i1 =>
      let draws' := draws ++ [EvNext Profile (pg_N p2) rk2] in
      match Next p2 rk2 with
      | None => (Panic "rank out of range",
                 step_state s (z_r g1) d2.2 draws' 0 0)
      | Some i2 => (Ok (i1, i2), step_state s (z_r g1) d2.2 draws' 0 0)
      end
    end.
Proof.
  intros (H1 & H2 & H3 & H4 & H5 & H6). cbv zeta.
  unfold nextIDs, bind, Uint64M, NextM. rewrite H1, H2, H3, H4, H6.
  destruct (Zipf_Uint64 (z_q g1) (z_v g1) (z_imax g1) r) as [k1 r1] eqn:E1.
  cbn [heap]. rewrite <- H5.
  rewrite list_lookup_insert_eq by (eapply lookup_lt_Some, H6).
  cbn [fst snd].
  destruct (Zipf_Uint64 (z_q g2) (z_v g2) (z_imax g2) r1) as [k2 r2] eqn:E2.
  unfold bind, emit, ret, panic, step_state. cbn.
  rewrite list_insert_insert_eq.
  destruct (Next p1 (Int64.of_uint64 k1)) as [i1|]; cbn;
    [destruct (Next p2 (Int64.of_uint64 k2)) as [i2|]; cbn|];
    rewrite <- ?app_assoc; reflexivity.
Qed.

(** One turn of the loop, on a state [Init] left. *)
Lemma Run_loop_S (w : World) (ctx : Context) (b : Zipf) (c : Client)
    (op : string) (res : gmap string value) (n : nat) (st : Stats)
    (s : Sys) g1 g2 p1 p2 r :
  Ready b s g1 g2 p1 p2 r ->
  Run_loop w ctx b c op res (S n) st s =
    let d1 := Zipf_Uint64 (z_q g1) (z_v g1) (z_imax g1) r in
    let d2 := Zipf_Uint64 (z_q g2) (z_v g2) (z_imax g2) d1.2 in
    let rk1 := Int64.of_uint64 d1.1 in
    let rk2 := Int64.of_uint64 d2.1 in
    let draws := [EvUint64 Bitmap d1.1; EvUint64 Profile d2.1;
                  EvNext Bitmap (pg_N p1) rk1] in
    match Next p1 rk1 with
    | None => (Panic "rank out of range",
               step_state s (z_r g1) d2.2 draws 0 0)
    | Some i1 =>
      let draws' := draws ++ [EvNext Profile (pg_N p2) rk2] in
      match Next p2 rk2 with
      | None => (Panic "rank out of range",
                 step_state s (z_r g1) d2.2 draws' 0 0)
      | Some i2 =>
        let q := query_of op b (i1, i2) in
        let t0 := time_Now w (nclock s) in
        let err := ExecuteQuery w (nexec s) c ctx (Index b) q true in
        let evs := draws' ++ [EvNow t0; EvExecuteQuery ctx (Index b) q true err] in
        match err with
        | Some e => (Ok (<["error" := VString e]> res),
                     step_state s (z_r g1) d2.2 evs 1 1)
        | None =>
          let t1 := time_Now w (S (nclock s)) in
          Run_loop w ctx b c op res n
            (Stats_Add st (Int64.saturate (t1 - t0)))
            (step_state s (z_r g1) d2.2 (evs ++ [EvNow t1]) 1 2)
        end
      end
    end.
Proof.
  intros HR. cbv zeta. cbn [Run_loop]. unfold bind at 1.
  rewrite (nextIDs_Ready _ _ _ _ _ _ _ HR). cbv zeta.
  destruct (Next p1 _) as [i1|]; [|reflexivity].
  destruct (Next p2 _) as [i2|]; [|reflexivity].
  unfold bind, NowM, ExecuteQueryM, ret, step_state. cbn.
  destruct (ExecuteQuery w (nexec s) c ctx (Index b) _ true) as [e|]; cbn;
    rewrite <- ?app_assoc; reflexivity.
Qed.

Lemma exec_calls_app (evs1 evs2 : list Event) :
  exec_calls (evs1 ++ evs2) = exec_calls evs1 ++ exec_calls evs2.
Proof. apply omap_app. Qed.

Lemma extends_refl (s : Sys) : extends s s [].
Proof. unfold extends. now rewrite app_nil_r. Qed.

Lemma extends_step_state (s s' : Sys) l r evs i j evs' :
  extends (step_state s l r evs i j) s' evs' -> extends s s' (evs ++ evs').
Proof. unfold extends. cbn. intros ->. now rewrite app_assoc. Qed.

(** The queries of the loop are the rendering of a prefix of the id
    stream, as long as the number of calls made; of all of it when the
    loop returns and no call has failed.  Every call carries the context,
    the index and the flag [true]. *)
Lemma Run_loop_queries (w : World) (ctx : Context) (b : Zipf) (c : Client)
    (op : string) (res : gmap string value) g1 g2 p1 p2 (n : nat) :
  forall (st : Stats) (s : Sys) r out s',
  Ready b s g1 g2 p1 p2 r ->
  Run_loop w ctx b c op res n st s = (out, s') ->
  exists evs,
    extends s s' evs /\
    exec_queries evs =
      query_of op b <$> take (length (exec_calls evs))
                             (permutedRanks g1 g2 p1 p2 n r) /\
    (is_Ok out -> Forall (fun e => e = None) (exec_errors evs) ->
     exec_queries evs = query_of op b <$> permutedRanks g1 g2 p1 p2 n r) /\
    Forall (fun cl => call_ctx cl = ctx /\ call_index cl = Index b /\
                      call_flag cl = true) (exec_calls evs).
Proof.
  induction n as [|n IH]; intros st s r out s' HR Hrun.
  - cbn in Hrun. unfold ret in Hrun. injection Hrun as <- <-.
    exists []. split; [apply extends_refl|]. split; [reflexivity|].
    split; [reflexivity|constructor].
  - rewrite (Run_loop_S _ _ _ _ _ _ _ _ _ _ _ _ _ _ HR) in Hrun.
    cbv zeta in Hrun. cbn [permutedRanks].
    destruct (Zipf_Uint64 (z_q g1) (z_v g1) (z_imax g1) r) as [k1 r1].
    cbn [fst snd] in Hrun.
    destruct (Zipf_Uint64 (z_q g2) (z_v g2) (z_imax g2) r1) as [k2 r2].
    cbn [fst snd] in Hrun.
    destruct (Next p1 (Int64.of_uint64 k1)) as [i1|].
    2:{ injection Hrun as <- <-. eexists. split; [reflexivity|].
        split; [reflexivity|]. split; [intros []|constructor]. }
    destruct (Next p2 (Int64.of_uint64 k2)) as [i2|].
    2:{ injection Hrun as <- <-. eexists. split; [reflexivity|].
        split; [reflexivity|]. split; [intros []|constructor]. }
    destruct (ExecuteQuery w (nexec s) c ctx (Index b) _ true) as [e|] eqn:Eerr.
    + injection Hrun as <- <-. eexists. split; [reflexivity|].
      split; [reflexivity|]. split.
      * intros _ Hall. cbn in Hall. inversion Hall; discriminate.
      * cbn. repeat constructor.
    + apply (IH _ _ r2) in Hrun; [|eapply Ready_step_state, HR].
      destruct Hrun as (evs & Hext & Hk & Hall & Hctx).
      apply extends_step_state in Hext.
      eexists. split; [exact Hext|].
      unfold exec_queries, exec_errors in *.
      rewrite !exec_calls_app, !fmap_app. cbn.
      split; [now rewrite Hk|]. split.
      * intros Hok HF. inversion HF; subst. f_equal. now apply Hall.
      * constructor; [now repeat split|exact Hctx].
Qed.

(** The loop sends a query on every iteration it gets through: the
    queries are the rendering of the whole id stream unless a call
    fails. *)
Lemma Run_loop_sends (w : World) (ctx : Context) (b : Zipf) (c : Client)
    (op : string) (res : gmap string value) g1 g2 p1 p2 (n : nat) :
  forall (st : Stats) (s : Sys) r,
  Ready b s g1 g2 p1 p2 r ->
  exists evs,
    extends s (Run_loop w ctx b c op res n st s).2 evs /\
    exec_queries evs =
      query_of op b <$> take (length (exec_calls evs))
                             (permutedRanks g1 g2 p1 p2 n r) /\
    Forall (fun cl => call_ctx cl = ctx /\ call_index cl = Index b /\
                      call_flag cl = true) (exec_calls evs) /\
    (Forall (fun e => e = None) (exec_errors evs) ->
     length (exec_calls evs) = length (permutedRanks g1 g2 p1 p2 n r) /\
     exec_queries evs = query_of op b <$> permutedRanks g1 g2 p1 p2 n r).
Proof.
  induction n as [|n IH]; intros st s r HR.
  - exists []. split; [apply extends_refl|]. split; [reflexivity|].
    split; [constructor|]. intros _. split; reflexivity.
  - rewrite (Run_loop_S _ _ _ _ _ _ _ _ _ _ _ _ _ _ HR).
    cbv zeta. cbn [permutedRanks].
    destruct (Zipf_Uint64 (z_q g1) (z_v g1) (z_imax g1) r) as [k1 r1].
    cbn [fst snd].
    destruct (Zipf_Uint64 (z_q g2) (z_v g2) (z_imax g2) r1) as [k2 r2].
    cbn [fst snd].
    destruct (Next p1 (Int64.of_uint64 k1)) as [i1|].
    2:{ eexists. split; [reflexivity|]. split; [reflexivity|].
        split; [constructor|]. intros _. split; reflexivity. }
    destruct (Next p2 (Int64.of_uint64 k2)) as [i2|].
    2:{ eexists. split; [reflexivity|]. split; [reflexivity|].
        split; [constructor|]. intros _. split; reflexivity. }
    destruct (ExecuteQuery w (nexec s) c ctx (Index b) _ true) as [e|].
    + eexists. split; [reflexivity|]. split; [reflexivity|]. split.
      * cbn. repeat constructor.
      * intros Hall. cbn in Hall. inversion Hall; discriminate.
    + match goal with |- context [Run_loop w ctx b c op res n ?st' ?s'] =>
        destruct (IH st' s' r2) as (evs & Hext & Hk & Hctx & Hall)
      end; [eapply Ready_step_state, HR|].
      apply extends_step_state in Hext.
      eexists. split; [exact Hext|].
      unfold exec_queries, exec_errors in *.
      rewrite !exec_calls_app, !fmap_app. cbn.
      split; [now rewrite Hk|]. split.
      * constructor; [now repeat split|exact Hctx].
      * intros HF. inversion HF; subst. destruct (Hall H2) as [Hlen Hq].
        split; [now rewrite Hlen|now rewrite Hq].
Qed.

(** *** Actions that stay inside the process *)

Lemma quiet_ret {A} (a : A) : quiet (ret a).
Proof. intros s. exists []. cbn. split; [apply extends_refl|auto]. Qed.

Lemma quiet_panic {A} (msg : string) : quiet (panic (A := A) msg).
Proof. intros s. exists []. cbn. split; [apply extends_refl|auto]. Qed.

Lemma quiet_bind {A B} (m : M A) (k : A -> M B) :
  quiet m -> (forall a, quiet (k a)) -> quiet (bind m k).
Proof.
  intros Hm Hk s. unfold bind. destruct (Hm s) as (evs & He & Hc & Hn & Ht).
  destruct (m s) as [[a|msg] s1]; cbn in *.
  - destruct (Hk a s1) as (evs' & He' & Hc' & Hn' & Ht').
    exists (evs ++ evs'). unfold extends in *.
    rewrite He', He, app_assoc, exec_calls_app, Hc, Hc'. repeat split; congruence.
  - exists evs. auto.
Qed.

Lemma quiet_Uint64M (d : Domain) (z : option rand_Zipf) : quiet (Uint64M d z).
Proof.
  destruct z as [g|]; [|apply quiet_panic]. intros s. cbn.
  destruct (heap s !! z_r g) as [r|]; cbn.
  - destruct (Zipf_Uint64 _ _ _ r) as [k r']. cbn.
    exists [EvUint64 d k]. repeat split.
  - exists []. split; [apply extends_refl|auto].
Qed.

Lemma quiet_NextM (d : Domain) (p : option PermutationGenerator) (rank : Z) :
  quiet (NextM d p rank).
Proof.
  destruct p as [g|]; [|apply quiet_panic]. cbn.
  apply quiet_bind.
  - intros s. exists [EvNext d (pg_N g) rank]. repeat split.
  - intros _. destruct (Next g rank); [apply quiet_ret|apply quiet_panic].
Qed.

Lemma quiet_nextIDs (b : Zipf) : quiet (nextIDs b).
Proof.
  unfold nextIDs.
  repeat (apply quiet_bind; [first [apply quiet_Uint64M|apply quiet_NextM]|intros ?]).
  apply quiet_ret.
Qed.

Lemma same_but_trace_refl (s : Sys) : same_but_trace s s.
Proof. repeat split. Qed.

Lemma steady_ret {A} (a : A) : steady (ret a).
Proof.
  intros s1 s2 H. exists []. cbn.
  split; [apply extends_refl|]. split; [apply extends_refl|]. auto.
Qed.

Lemma steady_panic {A} (msg : string) : steady (panic (A := A) msg).
Proof.
  intros s1 s2 H. exists []. cbn.
  split; [apply extends_refl|]. split; [apply extends_refl|]. auto.
Qed.

Lemma steady_bind {A B} (m : M A) (k : A -> M B) :
  steady m -> (forall a, steady (k a)) -> steady (bind m k).
Proof.
  intros Hm Hk s1 s2 H. unfold bind.
  destruct (Hm s1 s2 H) as (evs & E1 & E2 & Hc & Ho & Hs).
  destruct (m s1) as [[a1|msg1] s1'], (m s2) as [[a2|msg2] s2'];
    cbn [fst snd] in *; try discriminate.
  - injection Ho as ->.
    destruct (Hk a2 s1' s2' Hs) as (evs' & E1' & E2' & Hc' & Ho' & Hs').
    exists (evs ++ evs'). unfold extends in *.
    rewrite E1', E1, E2', E2, !app_assoc, exec_calls_app, Hc, Hc'.
    split; [reflexivity|]. split; [reflexivity|]. split; [reflexivity|].
    split; [exact Ho'|exact Hs'].
  - injection Ho as ->.
    exists evs. split; [exact E1|]. split; [exact E2|]. split; [exact Hc|].
    split; [reflexivity|exact Hs].
Qed.

Lemma steady_Uint64M (d : Domain) (z : option rand_Zipf) : steady (Uint64M d z).
Proof.
  destruct z as [g|]; [|apply steady_panic].
  intros s1 s2 (Hh & Hn & Ht). cbn. rewrite Hh.
  destruct (heap s2 !! z_r g) as [r|]; cbn.
  - destruct (Zipf_Uint64 _ _ _ r) as [k r']. cbn.
    exists [EvUint64 d k]. repeat split; cbn; congruence.
  - exists []. split; [apply extends_refl|]. split; [apply extends_refl|].
    repeat split; assumption.
Qed.

Lemma steady_NextM (d : Domain) (p : option PermutationGenerator) (rank : Z) :
  steady (NextM d p rank).
Proof.
  destruct p as [g|]; [|apply steady_panic]. cbn.
  apply steady_bind.
  - intros s1 s2 (Hh & Hn & Ht). exists [EvNext d (pg_N g) rank].
    repeat split; assumption.
  - intros _. destruct (Next g rank); [apply steady_ret|apply steady_panic].
Qed.

Lemma steady_nextIDs (b : Zipf) : steady (nextIDs b).
Proof.
  unfold nextIDs.
  repeat (apply steady_bind;
          [first [apply steady_Uint64M|apply steady_NextM]|intros ?]).
  apply steady_ret.
Qed.

(** Events without a call carry no context. *)
Lemma with_context_no_call (ctx : Context) (evs : list Event) :
  exec_calls evs = [] -> with_context ctx <$> evs = evs.
Proof.
  induction evs as [|ev evs IH]; [reflexivity|].
  unfold exec_calls in *. cbn. destruct ev; cbn; try discriminate;
    intros H; rewrite (IH H); reflexivity.
Qed.

Lemma extends_unique (s s' : Sys) (evs1 evs2 : list Event) :
  extends s s' evs1 -> extends s s' evs2 -> evs1 = evs2.
Proof. unfold extends. intros -> H. eapply app_inv_head, H. Qed.

(** Without one of its four generators an iteration panics. *)
Lemma nextIDs_nil (b : Zipf) (s : Sys) :
  bitmapRng b = None \/ profileRng b = None \/
  bitmapPerm b = None \/ profilePerm b = None ->
  ~ is_Ok (nextIDs b s).1.
Proof.
  intros H. unfold nextIDs, bind.
  destruct (Uint64M Bitmap (bitmapRng b) s) as [[k1|m1] s1] eqn:E1; [|cbn; tauto].
  destruct (Uint64M Profile (profileRng b) s1) as [[k2|m2] s2] eqn:E2; [|cbn; tauto].
  destruct (bitmapRng b) as [g1|]; [|discriminate].
  destruct (profileRng b) as [g2|]; [|discriminate].
  destruct (bitmapPerm b) as [p1|]; [|cbn; tauto].
  destruct (NextM Bitmap (Some p1) _ s2) as [[i1|m3] s3]; [|cbn; tauto].
  destruct (profilePerm b) as [p2|]; [|cbn; tauto].
  destruct H as [H|[H|[H|H]]]; discriminate.
Qed.

(** *** The loop on any state *)

(** Without one of the generators the loop sends nothing. *)
Lemma Run_loop_nil (w : World) (ctx : Context) (b : Zipf) (c : Client)
    (op : string) (res : gmap string value) (n : nat) (st : Stats) (s : Sys) :
  bitmapRng b = None \/ profileRng b = None \/
  bitmapPerm b = None \/ profilePerm b = None ->
  exists evs,
    extends s (Run_loop w ctx b c op res n st s).2 evs /\ exec_calls evs = [].
Proof.
  intros H. destruct n as [|n].
  - exists []. split; [apply extends_refl|reflexivity].
  - cbn [Run_loop]. unfold bind at 1.
    pose proof (nextIDs_nil b s H) as Hp.
    destruct (quiet_nextIDs b s) as (evs & He & Hc & _).
    destruct (nextIDs b s) as [[ids|msg] s1]; cbn in *; [tauto|].
    exists evs. auto.
Qed.

(** One turn of the loop on any state. *)
Lemma Run_loop_unfold (w : World) (ctx : Context) (b : Zipf) (c : Client)
    (op : string) (res : gmap string value) (n : nat) (st : Stats) (s : Sys) :
  Run_loop w ctx b c op res (S n) st s =
    match nextIDs b s with
    | (Panic msg, s1) => (Panic msg, s1)
    | (Ok ids, s1) =>
      let q := query_of op b ids in
      let t0 := time_Now w (nclock s1) in
      let err := ExecuteQuery w (nexec s1) c ctx (Index b) q true in
      let evs := [EvNow t0; EvExecuteQuery ctx (Index b) q true err] in
      match err with
      | Some e =>
        (Ok (<["error" := VString e]> res),
         {| heap := heap s1; trace := trace s1 ++ evs;
            nexec := S (nexec s1); nclock := S (nclock s1) |})
      | None =>
        let t1 := time_Now w (S (nclock s1)) in
        Run_loop w ctx b c op res n
          (Stats_Add st (Int64.saturate (t1 - t0)))
          {| heap := heap s1; trace := trace s1 ++ evs ++ [EvNow t1];
             nexec := S (nexec s1); nclock := S (S (nclock s1)) |}
      end
    end.
Proof.
  cbn [Run_loop]. unfold bind at 1.
  destruct (nextIDs b s) as [[ids|msg] s1]; [|reflexivity].
  unfold bind, NowM, ExecuteQueryM, ret. cbn.
  destruct (ExecuteQuery w (nexec s1) c ctx (Index b) _ true); cbn;
    rewrite <- ?app_assoc; reflexivity.
Qed.

(** How the loop ends, on any state: every call carries the context the
    driver was given; a loop that returns has made all its calls, none
    failing, or has stopped at the first failing call and returns that
    error alone; a loop that panics has seen no call fail. *)
Lemma Run_loop_outcome (w : World) (ctx : Context) (b : Zipf) (c : Client)
    (op : string) (res : gmap string value) (n : nat) :
  forall (st : Stats) (s : Sys),
  exists evs,
    extends s (Run_loop w ctx b c op res n st s).2 evs /\
    Forall (fun cl => call_ctx cl = ctx) (exec_calls evs) /\
    (forall m, (Run_loop w ctx b c op res n st s).1 = Ok m ->
       exec_errors evs = replicate n None \/
       exists k e, (k < n)%nat /\
         exec_errors evs = replicate k None ++ [Some e] /\
         m = <["error" := VString e]> res) /\
    (forall msg, (Run_loop w ctx b c op res n st s).1 = Panic msg ->
       (length (exec_calls evs) < n)%nat /\
       Forall (fun e => e = None) (exec_errors evs)).
Proof.
  induction n as [|n IH]; intros st s.
  - exists []. split; [apply extends_refl|]. split; [constructor|].
    split; [intros m _; left; reflexivity|]. intros msg H. discriminate H.
  - rewrite Run_loop_unfold.
    destruct (quiet_nextIDs b s) as (evs & He & Hc & _).
    destruct (nextIDs b s) as [[ids|msg0] s1]; cbn [fst snd] in *.
    2:{ exists evs. unfold exec_errors. rewrite Hc.
        split; [exact He|]. split; [constructor|].
        split; [intros m H; discriminate H|].
        intros msg _. split; [cbn; lia|constructor]. }
    cbv zeta.
    destruct (ExecuteQuery w (nexec s1) c ctx (Index b) _ true) as [e|].
    + eexists. split.
      { unfold extends in *. cbn [snd trace fst]. rewrite He, <- !app_assoc.
        reflexivity. }
      unfold exec_errors. rewrite exec_calls_app, Hc. cbn.
      split; [repeat constructor|].
      split; [|intros msg H; discriminate H].
      intros m [= <-]. right. exists O, e. split; [lia|]. split; reflexivity.
    + match goal with |- context [Run_loop w ctx b c op res n ?st' ?s'] =>
        destruct (IH st' s') as (evs' & He' & Hc' & Hok & Hpanic) end.
      eexists. split.
      { unfold extends in *. rewrite He'. cbn [trace].
        rewrite He, <- !app_assoc. reflexivity. }
      unfold exec_errors in *. rewrite exec_calls_app, Hc. cbn.
      split; [constructor; [reflexivity|exact Hc']|]. split.
      * intros m Hm. destruct (Hok m Hm) as [Hall|(k & e & Hk & Herr & ->)].
        -- left. cbn. f_equal. exact Hall.
        -- right. exists (S k), e. split; [lia|]. split; [|reflexivity].
           cbn. f_equal. exact Herr.
      * intros msg Hm. destruct (Hpanic msg Hm) as [Hlen Hall].
        split; [apply (proj1 (Nat.succ_lt_mono _ _)); exact Hlen|].
        constructor; [reflexivity|exact Hall].
Qed.

(** With a client that does not look at the context, the loop does the
    same whatever the context is: the same result, and the same events
    but for the context its calls carry. *)
Lemma Run_loop_same_calls (w : World) (ctx1 ctx2 : Context) (b : Zipf)
    (c : Client) (op : string) (res : gmap string value) (n : nat) :
  ignores_context w ctx1 ctx2 ->
  forall (st : Stats) (s1 s2 : Sys),
  same_but_trace s1 s2 ->
  exists evs,
    extends s1 (Run_loop w ctx1 b c op res n st s1).2 evs /\
    extends s2 (Run_loop w ctx2 b c op res n st s2).2
            (with_context ctx2 <$> evs) /\
    (Run_loop w ctx1 b c op res n st s1).1 =
    (Run_loop w ctx2 b c op res n st s2).1 /\
    same_but_trace (Run_loop w ctx1 b c op res n st s1).2
                   (Run_loop w ctx2 b c op res n st s2).2.
Proof.
  intros Hig. induction n as [|n IH]; intros st s1 s2 Hs.
  - exists []. cbn. split; [apply extends_refl|]. split; [apply extends_refl|].
    auto.
  - rewrite !Run_loop_unfold.
    destruct (steady_nextIDs b s1 s2 Hs) as (evs & E1 & E2 & Hc & Ho & Hs').
    destruct (nextIDs b s1) as [[ids|msg] s1'], (nextIDs b s2) as [[ids2|msg2] s2'];
      cbn [fst snd] in *; try discriminate.
    2:{ injection Ho as ->. exists evs.
        rewrite (with_context_no_call ctx2 evs Hc). auto. }
    injection Ho as <-. destruct Hs' as (Hh & Hn & Ht).
    cbv zeta. rewrite Hn, Ht, (Hig (nexec s2')).
    destruct (ExecuteQuery w (nexec s2') c ctx2 (Index b) _ true) as [e|].
    + eexists. split.
      { unfold extends in *. cbn [snd trace fst].
        rewrite E1, <- !app_assoc. reflexivity. }
      split.
      { unfold extends in *. cbn [snd trace fst].
        rewrite fmap_app, (with_context_no_call ctx2 evs Hc), E2, <- !app_assoc.
        reflexivity. }
      split; [reflexivity|]. repeat split; cbn; congruence.
    + match goal with
      | |- context [Run_loop w ctx1 b c op res n ?st' ?t1] =>
        match goal with
        | |- context [Run_loop w ctx2 b c op res n st' ?t2] =>
          destruct (IH st' t1 t2) as (evs' & E1' & E2' & Ho' & Hs'')
        end
      end; [repeat split; cbn; congruence|].
      eexists. split.
      { unfold extends in *. rewrite E1'. cbn [trace].
        rewrite E1, <- !app_assoc. reflexivity. }
      split.
      { unfold extends in *. rewrite E2'. cbn [trace].
        rewrite !fmap_app, (with_context_no_call ctx2 evs Hc), E2, <- !app_assoc.
        reflexivity. }
      split; [exact Ho'|exact Hs''].
Qed.

(** *** The loop on a state whose domain sizes match *)

Lemma Next_in_range (g : rand_Zipf) (p : PermutationGenerator) (k : Z) :
  Matched g p -> 0 <= k <= z_imax g ->
  Int64.of_uint64 k = k /\ 0 <= k < pg_N p /\
  Next p (Int64.of_uint64 k) = Some (permute (pg_N p) (pg_seed p) k).
Proof.
  intros [HN Hi] Hk.
  assert (Hof : Int64.of_uint64 k = k) by (apply Int64_of_uint64_small; lia).
  rewrite Hof. split; [reflexivity|]. split; [lia|].
  unfold Next.
  destruct (Z.leb_spec 0 k); [|lia]. destruct (Z.ltb_spec k (pg_N p)); [|lia].
  reflexivity.
Qed.

Lemma permutedRanks_length g1 g2 p1 p2 :
  ZipfContract -> Matched g1 p1 -> Matched g2 p2 ->
  forall n r, length (permutedRanks g1 g2 p1 p2 n r) = n.
Proof.
  intros HZ HM1 HM2. induction n as [|n IH]; intros r; [reflexivity|].
  cbn [permutedRanks].
  pose proof (HZ (z_q g1) (z_v g1) (z_imax g1) r) as Hd1.
  destruct (Zipf_Uint64 (z_q g1) (z_v g1) (z_imax g1) r) as [k1 r1].
  pose proof (HZ (z_q g2) (z_v g2) (z_imax g2) r1) as Hd2.
  destruct (Zipf_Uint64 (z_q g2) (z_v g2) (z_imax g2) r1) as [k2 r2].
  cbn [fst snd] in *.
  destruct (Next_in_range g1 p1 k1 HM1) as (_ & _ & ->);
    [destruct HM1; apply Hd1; lia|].
  destruct (Next_in_range g2 p2 k2 HM2) as (_ & _ & ->);
    [destruct HM2; apply Hd2; lia|].
  cbn. now rewrite IH.
Qed.

Lemma fails_on_call_S (w : World) (c : Client) (base k : nat) (e : string) :
  (2 <= k)%nat -> fails_on_call w c base k e ->
  fails_on_call w c (S base) (k - 1) e.
Proof.
  intros Hk [Hb Ha]. split.
  - intros j ctx i q f Hj.
    replace (S base + j)%nat with (base + S j)%nat by lia. apply Hb. lia.
  - intros ctx i q f.
    replace (S base + (k - 1 - 1))%nat with (base + (k - 1))%nat by lia. apply Ha.
Qed.

(** The loop with a client that fails on its [k]-th call. *)
Lemma Run_loop_fails (w : World) (ctx : Context) (b : Zipf) (c : Client)
    (op : string) (res : gmap string value) g1 g2 p1 p2 (e : string) :
  ZipfContract -> Matched g1 p1 -> Matched g2 p2 ->
  forall (n k : nat) (st : Stats) (s : Sys) r,
  (1 <= k <= n)%nat ->
  Ready b s g1 g2 p1 p2 r ->
  fails_on_call w c (nexec s) k e ->
  exists s' evs,
    Run_loop w ctx b c op res n st s = (Ok (<["error" := VString e]> res), s') /\
    extends s s' evs /\
    exec_errors evs = replicate (k - 1) None ++ [Some e] /\
    nexec s' = (nexec s + k)%nat.
Proof.
  intros HZ HM1 HM2. induction n as [|n IH]; intros k st s r Hk HR Hf; [lia|].
  rewrite (Run_loop_S _ _ _ _ _ _ _ _ _ _ _ _ _ _ HR). cbv zeta.
  pose proof (HZ (z_q g1) (z_v g1) (z_imax g1) r) as Hd1.
  destruct (Zipf_Uint64 (z_q g1) (z_v g1) (z_imax g1) r) as [k1 r1].
  pose proof (HZ (z_q g2) (z_v g2) (z_imax g2) r1) as Hd2.
  cbn [fst snd] in *.
  destruct (Zipf_Uint64 (z_q g2) (z_v g2) (z_imax g2) r1) as [k2 r2].
  cbn [fst snd] in *.
  destruct (Next_in_range g1 p1 k1 HM1) as (_ & _ & ->);
    [destruct HM1; apply Hd1; lia|].
  destruct (Next_in_range g2 p2 k2 HM2) as (_ & _ & ->);
    [destruct HM2; apply Hd2; lia|].
  destruct (decide (k = 1%nat)) as [->|Hk1].
  - destruct Hf as [_ Ha]. cbn in Ha. rewrite Nat.add_0_r in Ha. rewrite Ha.
    eexists _, _. split; [reflexivity|]. split; [reflexivity|].
    split; [reflexivity|]. cbn. lia.
  - destruct Hf as [Hb Ha].
    assert (He : forall q, ExecuteQuery w (nexec s) c ctx (Index b) q true = None).
    { intros q. specialize (Hb 0%nat ctx (Index b) q true).
      rewrite Nat.add_0_r in Hb. apply Hb. lia. }
    rewrite He.
    match goal with |- context [Run_loop w ctx b c op res n ?st' ?s'] =>
      destruct (IH (k - 1)%nat st' s' r2) as (s'' & evs & Hrun & Hext & Herr & Hn)
    end.
    + lia.
    + eapply Ready_step_state, HR.
    + cbn [step_state nexec]. apply fails_on_call_S; [lia|]. split; assumption.
    + rewrite Hrun. apply extends_step_state in Hext.
      eexists _, _. split; [reflexivity|]. split; [exact Hext|]. split.
      * unfold exec_errors in *. rewrite exec_calls_app, fmap_app, Herr. cbn.
        replace (k - 1)%nat with (S (k - 1 - 1))%nat at 2 by lia. reflexivity.
      * rewrite Hn. cbn. lia.
Qed.

(** The loop never panics, and every draw and every rank is in range. *)
Lemma Run_loop_safe (w : World) (ctx : Context) (b : Zipf) (c : Client)
    (op : string) (res : gmap string value) g1 g2 p1 p2 :
  ZipfContract -> Matched g1 p1 -> Matched g2 p2 ->
  pg_N p1 = BitmapIDRange b -> pg_N p2 = ProfileIDRange b ->
  forall (n : nat) (st : Stats) (s : Sys) r,
  Ready b s g1 g2 p1 p2 r ->
  is_Ok (Run_loop w ctx b c op res n st s).1 /\
  exists evs,
    extends s (Run_loop w ctx b c op res n st s).2 evs /\
    Forall (rank_ok b) evs.
Proof.
  intros HZ HM1 HM2 HN1 HN2. induction n as [|n IH]; intros st s r HR.
  - cbn. split; [exact I|]. exists []. split; [apply extends_refl|constructor].
  - rewrite (Run_loop_S _ _ _ _ _ _ _ _ _ _ _ _ _ _ HR). cbv zeta.
    pose proof (HZ (z_q g1) (z_v g1) (z_imax g1) r) as Hd1.
    destruct (Zipf_Uint64 (z_q g1) (z_v g1) (z_imax g1) r) as [k1 r1].
    pose proof (HZ (z_q g2) (z_v g2) (z_imax g2) r1) as Hd2.
    cbn [fst snd] in *.
    destruct (Zipf_Uint64 (z_q g2) (z_v g2) (z_imax g2) r1) as [k2 r2].
    cbn [fst snd] in *.
    destruct (Next_in_range g1 p1 k1 HM1) as (Ho1 & Hr1 & ->);
      [destruct HM1; apply Hd1; lia|].
    destruct (Next_in_range g2 p2 k2 HM2) as (Ho2 & Hr2 & ->);
      [destruct HM2; apply Hd2; lia|].
    assert (Hblock : Forall (rank_ok b)
              [EvUint64 Bitmap k1; EvUint64 Profile k2;
               EvNext Bitmap (pg_N p1) (Int64.of_uint64 k1);
               EvNext Profile (pg_N p2) (Int64.of_uint64 k2)]).
    { rewrite Ho1, Ho2. repeat constructor; cbn; lia. }
    destruct (ExecuteQuery w (nexec s) c ctx (Index b) _ true) as [e|].
    + split; [exact I|]. eexists. split; [reflexivity|].
      apply Forall_app. split; [exact Hblock|repeat constructor].
    + match goal with |- context [Run_loop w ctx b c op res n ?st' ?s'] =>
        destruct (IH st' s' r2) as (Hok & evs & Hext & Hall)
      end; [eapply Ready_step_state, HR|].
      split; [exact Hok|]. apply extends_step_state in Hext.
      eexists. split; [exact Hext|].
      apply Forall_app; split; [|exact Hall].
      apply Forall_app; split; [|repeat constructor].
      apply Forall_app; split; [exact Hblock|repeat constructor].
Qed.

End RunFacts.

(** ** [Init] followed by [Run] *)

Section SessionFacts.
Context `{L : Library}.

Lemma set_hasClient_id (b : Zipf) : set_hasClient b (hasClient b) = b.
Proof. destruct b; reflexivity. Qed.

Lemma NewZipf_Some (l : loc) (s v : float) (imax : Z) (g : rand_Zipf) :
  NewZipf l s v imax = Some g ->
  g = {| z_r := l; z_q := s; z_v := v; z_imax := imax |}.
Proof. unfold NewZipf. destruct (_ || _)%bool; congruence. Qed.

Lemma NewPermutationGenerator_Some (N seed : Z) (p : PermutationGenerator) :
  NewPermutationGenerator N seed = Some p ->
  p = {| pg_N := N; pg_seed := seed |} /\ 1 <= N.
Proof.
  unfold NewPermutationGenerator. destruct (Z.ltb_spec N 1); [discriminate|].
  intros [= <-]. auto.
Qed.

(** The fields of the object [Init] leaves. *)
Lemma configured_fields (b : Zipf) (a : Z) (l : loc) (hc : HasClient) :
  let b' := set_hasClient (configured b a l) hc in
  let seed := Int64.add (Seed b) a in
  (bitmapRng b' =
     NewZipf l (BitmapExponent b)
       (getZipfOffset (BitmapIDRange b) (BitmapExponent b) (BitmapRatio b))
       (Int64.to_uint64 (Int64.sub (BitmapIDRange b) 1)) /\
   profileRng b' =
     NewZipf l (ProfileExponent b)
       (getZipfOffset (ProfileIDRange b) (ProfileExponent b) (ProfileRatio b))
       (Int64.to_uint64 (Int64.sub (ProfileIDRange b) 1)) /\
   bitmapPerm b' = NewPermutationGenerator (BitmapIDRange b) seed /\
   profilePerm b' = NewPermutationGenerator (ProfileIDRange b) (Int64.add seed 1)) /\
  (BaseBitmapID b' = BaseBitmapID b /\ BaseProfileID b' = BaseProfileID b /\
   BitmapIDRange b' = BitmapIDRange b /\ ProfileIDRange b' = ProfileIDRange b /\
   Iterations b' = Iterations b) /\
  (Frame b' = Frame b /\ Operation b' = Operation b /\ Index b' = Index b /\
   Seed b' = seed /\ Name b' = "zipf" /\ hasClient b' = hc).
Proof. destruct b. cbn. repeat split. Qed.

(** What [Init] leaves when it returns, with or without an error. *)
Lemma Init_post (w : World) (hosts : list string) (a : Z) (b : Zipf) (s : Sys)
    (b' : Zipf) (e : option string) (s' : Sys) :
  Init w hosts a b s = (Ok (b', e), s') ->
  (exists hc, b' = set_hasClient (configured b a (length (heap s))) hc) /\
  heap s' = heap s ++ [rand_New (Int64.add (Seed b) a)] /\
  exists rest, extends s s' (construction_events b a ++ rest).
Proof.
  rewrite Init_eq. cbv zeta.
  destruct (invalid_operation (Operation b)).
  - intros [= <- <- <-]. split; [|split].
    + exists (hasClient (configured b a (length (heap s)))).
      now rewrite set_hasClient_id.
    + reflexivity.
    + exists []. unfold extends. cbn. rewrite ?app_nil_r. reflexivity.
  - destruct hosts as [|host0 rest]; [discriminate|].
    intros [= <- <- <-]. split; [|split].
    + eexists. reflexivity.
    + reflexivity.
    + eexists. unfold extends. cbn. rewrite <- app_assoc. reflexivity.
Qed.

(** [Init] establishes the invariant of the loop. *)
Lemma Init_Ready (w : World) (hosts : list string) (a : Z) (b : Zipf) (s : Sys)
    (b' : Zipf) (e : option string) (s' : Sys) g1 g2 p1 p2 :
  Init w hosts a b s = (Ok (b', e), s') ->
  bitmapRng b' = Some g1 -> profileRng b' = Some g2 ->
  bitmapPerm b' = Some p1 -> profilePerm b' = Some p2 ->
  Ready b' s' g1 g2 p1 p2 (rand_New (Int64.add (Seed b) a)).
Proof.
  intros Hinit H1 H2 H3 H4.
  destruct (Init_post _ _ _ _ _ _ _ _ Hinit) as ((hc & ->) & Hheap & _).
  destruct (configured_fields b a (length (heap s)) hc) as ((F1 & F2 & _) & _).
  pose proof H1 as G1. pose proof H2 as G2.
  rewrite F1 in G1. rewrite F2 in G2.
  apply NewZipf_Some in G1, G2. repeat split; try assumption.
  - subst. reflexivity.
  - subst g1. cbn. rewrite Hheap. apply list_lookup_middle. reflexivity.
Qed.

Lemma NewZipf_loc (l l' : loc) (s v : float) (imax : Z) :
  NewZipf l' s v imax =
  match NewZipf l s v imax with
  | Some g => Some {| z_r := l'; z_q := z_q g; z_v := z_v g; z_imax := z_imax g |}
  | None => None
  end.
Proof. unfold NewZipf. destruct (_ || _)%bool; reflexivity. Qed.

(** The id stream depends on the parameters of the samplers, not on where
    their stream lives. *)
Lemma permutedRanks_params g1 g1' g2 g2' p1 p2 (n : nat) :
  z_q g1 = z_q g1' -> z_v g1 = z_v g1' -> z_imax g1 = z_imax g1' ->
  z_q g2 = z_q g2' -> z_v g2 = z_v g2' -> z_imax g2 = z_imax g2' ->
  forall r, permutedRanks g1 g2 p1 p2 n r = permutedRanks g1' g2' p1 p2 n r.
Proof.
  intros E1 E2 E3 E4 E5 E6. induction n as [|n IH]; intros r; [reflexivity|].
  cbn [permutedRanks]. rewrite E1, E2, E3, E4, E5, E6.
  destruct (Zipf_Uint64 _ _ _ r) as [k1 r1].
  destruct (Zipf_Uint64 _ _ _ r1) as [k2 r2].
  now rewrite IH.
Qed.

(** The id sequence of a configuration, from the generators [Init] built. *)
Lemma idSequence_configured (b : Zipf) (a : Z) (l : loc) (hc : HasClient)
    g1 g2 p1 p2 :
  let b' := set_hasClient (configured b a l) hc in
  bitmapRng b' = Some g1 -> profileRng b' = Some g2 ->
  bitmapPerm b' = Some p1 -> profilePerm b' = Some p2 ->
  idSequence b a =
    absolute b' <$> permutedRanks g1 g2 p1 p2 (Z.to_nat (Iterations b'))
                      (rand_New (Int64.add (Seed b) a)).
Proof.
  intros b'. subst b'.
  destruct (configured_fields b a l hc)
    as ((F1 & F2 & F3 & F4) & (B1 & B2 & _ & _ & B5) & _).
  rewrite F1, F2, F3, F4, B5. intros H1 H2 H3 H4.
  unfold idSequence.
  rewrite (NewZipf_loc l O (BitmapExponent b)), H1.
  rewrite (NewZipf_loc l O (ProfileExponent b)), H2. rewrite H3, H4.
  unfold absolute. rewrite B1, B2.
  f_equal. apply permutedRanks_params; reflexivity.
Qed.

Lemma idSequence_nil (b : Zipf) (a : Z) (l : loc) (hc : HasClient) :
  let b' := set_hasClient (configured b a l) hc in
  bitmapRng b' = None \/ profileRng b' = None \/
  bitmapPerm b' = None \/ profilePerm b' = None ->
  idSequence b a = [].
Proof.
  intros b'. subst b'.
  destruct (configured_fields b a l hc) as ((F1 & F2 & F3 & F4) & _).
  rewrite F1, F2, F3, F4. unfold idSequence.
  rewrite (NewZipf_loc l O (BitmapExponent b)).
  rewrite (NewZipf_loc l O (ProfileExponent b)).
  intros [H|[H|[H|H]]]; rewrite H; try reflexivity;
    repeat (match goal with |- context [match ?x with _ => _ end] =>
              destruct x end; try reflexivity).
Qed.

(** A run after [Init]: its queries are the rendering of a prefix of the
    id sequence of the configuration, as long as the number of calls. *)
Lemma Init_Run_ids (w w' : World) (hosts : list string) (a : Z) (b : Zipf)
    (s : Sys) (b' : Zipf) (e : option string) (s' : Sys) (ctx : Context) :
  Init w hosts a b s = (Ok (b', e), s') ->
  exists evs,
    extends s' (Run w' ctx b' s').2 evs /\
    exec_queries evs =
      query_text b' <$> take (length (exec_calls evs)) (idSequence b a) /\
    (is_Ok (Run w' ctx b' s').1 -> client (hasClient b') <> None ->
     Forall (fun e => e = None) (exec_errors evs) ->
     exec_queries evs = query_text b' <$> idSequence b a).
Proof.
  intros Hinit.
  destruct (Init_post _ _ _ _ _ _ _ _ Hinit) as ((hc & Hb') & _).
  unfold Run. destruct (client (hasClient b')) as [c|].
  2:{ exists []. split; [apply extends_refl|]. split; [reflexivity|].
      intros _ Hc. now destruct Hc. }
  destruct (bitmapRng b') as [g1|] eqn:H1;
    [destruct (profileRng b') as [g2|] eqn:H2;
     [destruct (bitmapPerm b') as [p1|] eqn:H3;
      [destruct (profilePerm b') as [p2|] eqn:H4|]|]|].
  - pose proof (Init_Ready _ _ _ _ _ _ _ _ _ _ _ _ Hinit H1 H2 H3 H4) as HR.
    destruct (Run_loop w' ctx b' c (operation_of (Operation b')) ∅
                (Z.to_nat (Iterations b')) NewStats s') as [out s''] eqn:Hrun.
    destruct (Run_loop_queries _ _ _ _ _ _ _ _ _ _ _ _ _ _ _ _ HR Hrun)
      as (evs & Hext & Hq & Hall & _).
    subst b'.
    rewrite (idSequence_configured b a _ hc g1 g2 p1 p2 H1 H2 H3 H4).
    exists evs. split; [exact Hext|]. split.
    + rewrite Hq, <- fmap_take, <- list_fmap_compose. reflexivity.
    + intros Hok _ HF. cbn in Hok. rewrite (Hall Hok HF), <- list_fmap_compose.
      reflexivity.
  - destruct (Run_loop_nil w' ctx b' c (operation_of (Operation b')) ∅
                (Z.to_nat (Iterations b')) NewStats s') as (evs & Hext & Hc);
      [auto|].
    exists evs. unfold exec_queries. rewrite Hc. split; [exact Hext|].
    split; [reflexivity|]. intros _ _ _. subst b'.
    rewrite (idSequence_nil b a (length (heap s)) hc); auto.
  - destruct (Run_loop_nil w' ctx b' c (operation_of (Operation b')) ∅
                (Z.to_nat (Iterations b')) NewStats s') as (evs & Hext & Hc);
      [auto|].
    exists evs. unfold exec_queries. rewrite Hc. split; [exact Hext|].
    split; [reflexivity|]. intros _ _ _. subst b'.
    rewrite (idSequence_nil b a (length (heap s)) hc); auto.
  - destruct (Run_loop_nil w' ctx b' c (operation_of (Operation b')) ∅
                (Z.to_nat (Iterations b')) NewStats s') as (evs & Hext & Hc);
      [auto|].
    exists evs. unfold exec_queries. rewrite Hc. split; [exact Hext|].
    split; [reflexivity|]. intros _ _ _. subst b'.
    rewrite (idSequence_nil b a (length (heap s)) hc); auto.
  - destruct (Run_loop_nil w' ctx b' c (operation_of (Operation b')) ∅
                (Z.to_nat (Iterations b')) NewStats s') as (evs & Hext & Hc);
      [auto|].
    exists evs. unfold exec_queries. rewrite Hc. split; [exact Hext|].
    split; [reflexivity|]. intros _ _ _. subst b'.
    rewrite (idSequence_nil b a (length (heap s)) hc); auto.
Qed.

Lemma same_config_ids (b1 b2 : Zipf) (a : Z) :
  same_config b1 b2 ->
  idSequence b1 a = idSequence b2 a /\
  construction_events b1 a = construction_events b2 a.
Proof.
  intros (E1 & E2 & E3 & E4 & E5 & E6 & E7 & E8 & E9 & E10).
  unfold idSequence, construction_events, absolute.
  rewrite E1, E2, E3, E4, E5, E6, E7, E8, E9, E10. split; reflexivity.
Qed.

(** C1.  Two runs of [Init] followed by [Run] on the same configuration
    (seed, ranges, exponents, ratios, base ids, iteration count) and the
    same agent number, whatever the hosts, the server, the clock and the
    contexts are: both seed the stream with [Seed + agentNum] and the
    permutations with that seed and that seed plus one, and the queries of
    each are the rendering of a prefix of one id sequence, [idSequence],
    which is a function of the configuration; the prefix is as long as the
    number of calls the run made, and is the whole sequence when the run
    returns without a failed call. *)
Theorem Init_Run_deterministic (w1 w1' w2 w2' : World)
    (hosts1 hosts2 : list string) (ctx1 ctx2 : Context) (a : Z)
    (b1 b2 b1' b2' : Zipf) (e1 e2 : option string) (s1 s2 s1' s2' : Sys) :
  same_config b1 b2 ->
  Init w1 hosts1 a b1 s1 = (Ok (b1', e1), s1') ->
  Init w2 hosts2 a b2 s2 = (Ok (b2', e2), s2') ->
  let ids := idSequence b1 a in
  let r1 := Run w1' ctx1 b1' s1' in
  let r2 := Run w2' ctx2 b2' s2' in
  (exists rest1 rest2,
     extends s1 s1' (construction_events b1 a ++ rest1) /\
     extends s2 s2' (construction_events b1 a ++ rest2)) /\
  exists evs1 evs2,
    extends s1' r1.2 evs1 /\ extends s2' r2.2 evs2 /\
    exec_queries evs1 = query_text b1' <$> take (length (exec_calls evs1)) ids /\
    exec_queries evs2 = query_text b2' <$> take (length (exec_calls evs2)) ids /\
    (is_Ok r1.1 -> client (hasClient b1') <> None ->
     Forall (fun e => e = None) (exec_errors evs1) ->
     exec_queries evs1 = query_text b1' <$> ids) /\
    (is_Ok r2.1 -> client (hasClient b2') <> None ->
     Forall (fun e => e = None) (exec_errors evs2) ->
     exec_queries evs2 = query_text b2' <$> ids).
Proof.
  intros Hcfg Hi1 Hi2 ids r1 r2. subst ids r1 r2.
  destruct (same_config_ids b1 b2 a Hcfg) as [-> ->].
  split.
  - destruct (Init_post _ _ _ _ _ _ _ _ Hi1) as (_ & _ & rest1 & Hx1).
    destruct (Init_post _ _ _ _ _ _ _ _ Hi2) as (_ & _ & rest2 & Hx2).
    exists rest1, rest2. split; [|exact Hx2].
    destruct (same_config_ids b1 b2 a Hcfg) as [_ <-]. exact Hx1.
  - destruct (Init_Run_ids w1 w1' _ _ _ _ _ _ _ ctx1 Hi1) as (evs1 & X1 & Q1 & C1).
    destruct (Init_Run_ids w2 w2' _ _ _ _ _ _ _ ctx2 Hi2) as (evs2 & X2 & Q2 & C2).
    destruct (same_config_ids b1 b2 a Hcfg) as [Hids _].
    rewrite Hids in Q1, C1.
    exists evs1, evs2. repeat split; assumption.
Qed.

(** C6.  On a state [Init] left, [Run] sends one query on every iteration
    it gets through, and the text of each is
    [Op(frame='F', rowID=R, columnID=C)], where [Op] is "SetBit" for
    the operation "set" and "ClearBit" for "clear", [F] is the frame,
    and [R] and [C] are the base ids plus the permuted ranks of that
    iteration, in [int64] and printed in decimal: the queries are the
    texts of the first rank pairs, as many as calls were made; with a
    client and no failed call they are the texts of all the rank pairs;
    and there is one rank pair per iteration when the domain sizes
    match. *)
Theorem Run_query_text (w : World) (ctx : Context) (b : Zipf) (s : Sys)
    g1 g2 p1 p2 r :
  Ready b s g1 g2 p1 p2 r ->
  let n := Z.to_nat (Iterations b) in
  let ranks := permutedRanks g1 g2 p1 p2 n r in
  exists evs Op,
    let text := fun ranks : Z * Z =>
      Op +:+ "(frame='" +:+ Frame b +:+
      "', rowID=" +:+
      fmt_d (Int64.add (BaseBitmapID b) (Int64.wrap ranks.1)) +:+
      ", columnID=" +:+
      fmt_d (Int64.add (BaseProfileID b) (Int64.wrap ranks.2)) +:+ ")" in
    extends s (Run w ctx b s).2 evs /\
    (Operation b = "set" -> Op = "SetBit") /\
    (Operation b = "clear" -> Op = "ClearBit") /\
    exec_queries evs = text <$> take (length (exec_calls evs)) ranks /\
    Forall (fun cl => call_ctx cl = ctx /\ call_index cl = Index b /\
                      call_flag cl = true) (exec_calls evs) /\
    (client (hasClient b) <> None ->
     Forall (fun e => e = None) (exec_errors evs) ->
     length (exec_calls evs) = length ranks /\
     exec_queries evs = text <$> ranks) /\
    (ZipfContract -> Matched g1 p1 -> Matched g2 p2 -> length ranks = n).
Proof.
  intros HR n ranks. subst n ranks.
  assert (Hlen : ZipfContract -> Matched g1 p1 -> Matched g2 p2 ->
                 length (permutedRanks g1 g2 p1 p2 (Z.to_nat (Iterations b)) r)
                 = Z.to_nat (Iterations b)).
  { intros HZ HM1 HM2. now apply permutedRanks_length. }
  unfold Run. destruct (client (hasClient b)) as [c|].
  - destruct (Run_loop_sends w ctx b c (operation_of (Operation b)) ∅
                g1 g2 p1 p2 (Z.to_nat (Iterations b)) NewStats s r HR)
      as (evs & Hext & Hq & Hc & Hall).
    exists evs, (operation_of (Operation b)). cbv zeta.
    split; [exact Hext|].
    split; [intros ->; reflexivity|]. split; [intros ->; reflexivity|].
    split; [exact Hq|]. split; [exact Hc|].
    split; [intros _; exact Hall|exact Hlen].
  - exists [], (operation_of (Operation b)). cbv zeta.
    split; [apply extends_refl|].
    split; [intros ->; reflexivity|]. split; [intros ->; reflexivity|].
    split; [reflexivity|]. split; [constructor|].
    split; [intros Hc; now destruct Hc|exact Hlen].
Qed.

(** C3.  On a state [Init] left with matching domain sizes and a client,
    if the [k]-th call of the client fails with [e] ([1 <= k <=
    Iterations]) and the calls before it succeed, [Run] makes exactly [k]
    calls, of which the first [k - 1] succeed and the last fails, and
    returns the map that holds [e] under "error". *)
Theorem Run_stops_at_first_error (w : World) (ctx : Context) (b : Zipf)
    (s : Sys) (c : Client) g1 g2 p1 p2 r (k : nat) (e : string) :
  ZipfContract ->
  Ready b s g1 g2 p1 p2 r -> Matched g1 p1 -> Matched g2 p2 ->
  client (hasClient b) = Some c ->
  (1 <= k)%nat -> Z.of_nat k <= Iterations b ->
  fails_on_call w c (nexec s) k e ->
  exists s' evs,
    Run w ctx b s = (Ok {["error" := VString e]}, s') /\
    extends s s' evs /\
    exec_errors evs = replicate (k - 1) None ++ [Some e] /\
    length (exec_calls evs) = k /\
    nexec s' = (nexec s + k)%nat.
Proof.
  intros HZ HR HM1 HM2 Hc Hk1 Hk2 Hf. unfold Run. rewrite Hc.
  destruct (Run_loop_fails w ctx b c (operation_of (Operation b)) ∅
              g1 g2 p1 p2 e HZ HM1 HM2 (Z.to_nat (Iterations b)) k NewStats s r)
    as (s' & evs & Hrun & Hext & Herr & Hn); [lia|exact HR|exact Hf|].
  exists s', evs. rewrite Hrun, insert_empty. split; [reflexivity|].
  split; [exact Hext|]. split; [exact Herr|]. split; [|exact Hn].
  apply (f_equal length) in Herr. unfold exec_errors in Herr.
  rewrite length_fmap, length_app, length_replicate in Herr. cbn in Herr. lia.
Qed.

(** C10.  Without a client [Run] returns at once: no draw, no call, no
    change of state, and a map whose only entry is the error "No client
    set for Zipf". *)
Theorem Run_without_client (w : World) (ctx : Context) (b : Zipf) (s : Sys) :
  client (hasClient b) = None ->
  Run w ctx b s = (Ok {["error" := VError "No client set for Zipf"]}, s).
Proof.
  intros Hc. unfold Run. rewrite Hc, insert_empty. reflexivity.
Qed.

(** C8, amended.  [Run] never examines the context.  Every call it makes
    carries the context as it was given.  With a client whose answers do
    not depend on the context, a run with another context, cancelled or
    not, makes the same calls in the same order (index, query, flag and
    answer; only the context they carry differs), returns the same value
    and leaves the same state but for the trace.  A run that returns has
    no client, or has made all its [Iterations] calls with none failing,
    or has stopped at the first call that failed and returns the error of
    that call alone, without statistics; a run that panics has seen no
    call fail. *)
Theorem Run_never_checks_context (w : World) (ctx1 ctx2 : Context) (b : Zipf)
    (s : Sys) :
  let r1 := Run w ctx1 b s in
  let r2 := Run w ctx2 b s in
  let n := Z.to_nat (Iterations b) in
  exists evs,
    extends s r1.2 evs /\
    Forall (fun cl => call_ctx cl = ctx1) (exec_calls evs) /\
    (ignores_context w ctx1 ctx2 ->
     extends s r2.2 (with_context ctx2 <$> evs) /\
     r1.1 = r2.1 /\ same_but_trace r1.2 r2.2) /\
    (forall m, r1.1 = Ok m ->
       (client (hasClient b) = None /\ evs = [] /\
        m = {["error" := VError "No client set for Zipf"]}) \/
       (client (hasClient b) <> None /\ exec_errors evs = replicate n None) \/
       (exists k e, (k < n)%nat /\
          exec_errors evs = replicate k None ++ [Some e] /\
          m = {["error" := VString e]})) /\
    (forall msg, r1.1 = Panic msg ->
       (length (exec_calls evs) < n)%nat /\
       Forall (fun e => e = None) (exec_errors evs)).
Proof.
  cbv zeta. unfold Run. destruct (client (hasClient b)) as [c|].
  - destruct (Run_loop_outcome w ctx1 b c (operation_of (Operation b)) ∅
                (Z.to_nat (Iterations b)) NewStats s)
      as (evs & Hext & Hctx & Hok & Hpanic).
    exists evs. split; [exact Hext|]. split; [exact Hctx|]. split; [|split].
    + intros Hig.
      destruct (Run_loop_same_calls w ctx1 ctx2 b c (operation_of (Operation b))
                  ∅ (Z.to_nat (Iterations b)) Hig NewStats s s
                  (same_but_trace_refl s))
        as (evs' & E1 & E2 & Ho & Hs).
      rewrite (extends_unique _ _ _ _ Hext E1). auto.
    + intros m Hm. right.
      destruct (Hok m Hm) as [Hall|(k & e & Hk & Herr & ->)].
      * left. split; [discriminate|exact Hall].
      * right. exists k, e. rewrite insert_empty. auto.
    + exact Hpanic.
  - exists []. split; [apply extends_refl|]. split; [constructor|].
    split; [|split].
    + intros _. split; [apply extends_refl|]. split; [reflexivity|].
      apply same_but_trace_refl.
    + intros m [= <-]. left. rewrite insert_empty. auto.
    + intros msg H. discriminate H.
Qed.

(** C9.  After [Init] has constructed both samplers and both permutation
    generators, and given the contract of [rand.Zipf], [Run] never panics:
    no draw fails, every draw lies in [[0, domainSize - 1]], and every rank
    handed to a permutation generator is inside the domain that generator
    was built with, which is the domain of its sampler. *)
Theorem Run_ranks_in_range (w w' : World) (hosts : list string) (a : Z)
    (b : Zipf) (s : Sys) (b' : Zipf) (e : option string) (s' : Sys)
    (ctx : Context) :
  ZipfContract -> well_typed b ->
  Init w hosts a b s = (Ok (b', e), s') ->
  bitmapRng b' <> None -> profileRng b' <> None ->
  bitmapPerm b' <> None -> profilePerm b' <> None ->
  is_Ok (Run w' ctx b' s').1 /\
  exists evs,
    extends s' (Run w' ctx b' s').2 evs /\ Forall (rank_ok b') evs.
Proof.
  intros HZ (_ & HrB & HrP & _) Hinit N1 N2 N3 N4.
  destruct (bitmapRng b') as [g1|] eqn:H1; [|contradiction].
  destruct (profileRng b') as [g2|] eqn:H2; [|contradiction].
  destruct (bitmapPerm b') as [p1|] eqn:H3; [|contradiction].
  destruct (profilePerm b') as [p2|] eqn:H4; [|contradiction].
  pose proof (Init_Ready _ _ _ _ _ _ _ _ _ _ _ _ Hinit H1 H2 H3 H4) as HR.
  destruct (Init_post _ _ _ _ _ _ _ _ Hinit) as ((hc & Hb') & _).
  destruct (configured_fields b a (length (heap s)) hc)
    as ((F1 & F2 & F3 & F4) & (_ & _ & B3 & B4 & _) & _).
  rewrite <- Hb' in *. rewrite H1 in F1. rewrite H2 in F2.
  rewrite H3 in F3. rewrite H4 in F4. symmetry in F1, F2, F3, F4.
  apply NewZipf_Some in F1, F2.
  apply NewPermutationGenerator_Some in F3, F4.
  destruct F3 as [-> G3], F4 as [-> G4]. subst g1 g2.
  unfold Int64.in_range in HrB, HrP.
  unfold Run. destruct (client (hasClient b')) as [c|].
  - refine (Run_loop_safe w' ctx b' c _ _ _ _ _ _ HZ _ _ _ _ _ _ _ _ HR).
    + split; cbn; [lia|]. apply Int64_pred_to_uint64. lia.
    + split; cbn; [lia|]. apply Int64_pred_to_uint64. lia.
    + cbn. congruence.
    + cbn. congruence.
  - split; [exact I|]. exists []. split; [apply extends_refl|constructor].
Qed.

End SessionFacts.

(** * The theorems on a concrete library and server *)

Lemma Demo_ZipfContract : ZipfContract (L := Demo.lib).
Proof.
  intros q v imax r Himax. cbn. unfold Demo.lcg_Uint64. cbn.
  pose proof (Z.mod_pos_bound r (imax + 1)). lia.
Qed.

Lemma Demo_Ready4 :
  Ready Demo.initA.1.1 Demo.initA.2 Demo.rowSampler Demo.colSampler
        Demo.rowPerm Demo.colPerm (43 : Rand (Library := Demo.lib)).
Proof. repeat split; vm_compute; reflexivity. Qed.

Lemma Demo_Ready10 :
  Ready Demo.init10.1.1 Demo.init10.2 Demo.rowSampler Demo.colSampler
        Demo.rowPerm Demo.colPerm (43 : Rand (Library := Demo.lib)).
Proof. repeat split; vm_compute; reflexivity. Qed.

(** C4 at "flip". *)
Lemma Init_unsupported_operation_witness :
  ~ valid_operation (Operation Demo.cfgFlip) /\
  Init Demo.quietWorld ["h"] 1 Demo.cfgFlip Demo.boot =
    (Ok (configured Demo.cfgFlip 1 O, Some (unsupported_operation "flip")),
     after_construction Demo.cfgFlip 1 Demo.boot).
Proof.
  assert (H : ~ valid_operation (Operation Demo.cfgFlip))
    by (intros [H|H]; discriminate H).
  split; [exact H|].
  exact (proj1 (Init_unsupported_operation Demo.quietWorld ["h"] 1
                  Demo.cfgFlip Demo.boot H)).
Defined.

(** C4, as stated, fails: when [Init] returns the error for "flip", the
    stream, both samplers and both permutation generators have been
    constructed and are in the benchmark object. *)
Lemma Init_flip_generators_constructed :
  Init Demo.quietWorld ["h"] 1 Demo.cfgFlip Demo.boot =
    (Ok (Demo.initFlip.1.1, Some (unsupported_operation "flip")),
     Demo.initFlip.2) /\
  bitmapRng Demo.initFlip.1.1 = Some Demo.rowSampler /\
  profileRng Demo.initFlip.1.1 = Some Demo.colSampler /\
  bitmapPerm Demo.initFlip.1.1 = Some Demo.rowPerm /\
  profilePerm Demo.initFlip.1.1 = Some Demo.colPerm /\
  heap Demo.initFlip.2 = [43] /\
  trace Demo.initFlip.2 =
    [EvRandNew 43; EvNewZipf Bitmap 2 99 99; EvNewZipf Profile 2 49 49;
     EvNewPermutationGenerator Bitmap 100 43;
     EvNewPermutationGenerator Profile 50 44].
Proof. repeat split; vm_compute; reflexivity. Qed.

(** C5 at ratio 1. *)
Lemma Init_checks_operation_only_witness :
  valid_operation (Operation Demo.cfgRatioOne) /\
  Init Demo.quietWorld ["h"] 1 Demo.cfgRatioOne Demo.boot =
    (Ok (set_hasClient (configured Demo.cfgRatioOne 1 O)
           (Demo.connected "h"), None),
     log (after_construction Demo.cfgRatioOne 1 Demo.boot)
         (connection_events Demo.quietWorld ["h"] "h" 1 Demo.cfgRatioOne)).
Proof.
  assert (H : valid_operation (Operation Demo.cfgRatioOne)) by (left; reflexivity).
  split; [exact H|].
  exact (Init_checks_operation_only Demo.quietWorld ["h"] "h" [] 1
           Demo.cfgRatioOne Demo.boot H eq_refl).
Defined.

(** C5, as stated, fails: with ratio 1 [Init] returns no error, and the
    row sampler it has built holds an infinite offset. *)
Lemma Init_accepts_ratio_one :
  BitmapRatio Demo.cfgRatioOne = 1%float /\
  Init Demo.quietWorld ["h"] 1 Demo.cfgRatioOne Demo.boot =
    (Ok (Demo.initRatioOne.1.1, None), Demo.initRatioOne.2) /\
  bitmapRng Demo.initRatioOne.1.1 =
    Some {| z_r := O; z_q := 2; z_v := infinity; z_imax := 99 |}.
Proof. repeat split; vm_compute; reflexivity. Qed.

(** C7 on a server where provisioning fails. *)
Lemma Init_provisioning_not_fatal_witness :
  valid_operation (Operation Demo.cfg4) /\
  initIndex Demo.failing3 "x" (Index Demo.cfg4) (Frame Demo.cfg4) =
    Some "index exists" /\
  Init Demo.failing3 ["x"; "y"] 1 Demo.cfg4 Demo.boot =
    (Ok (Demo.initB.1.1, None), Demo.initB.2) /\
  trace Demo.initB.2 =
    construction_events Demo.cfg4 1 ++
    [EvInitIndex "x" "i" "f" (Some "index exists"); EvPrintln "index exists";
     EvHasClientInit ["x"; "y"] 1 None].
Proof.
  assert (H : valid_operation (Operation Demo.cfg4)) by (left; reflexivity).
  split; [exact H|]. split; [reflexivity|].
  destruct (Init_provisioning_not_fatal Demo.failing3 ["x"; "y"] "x" ["y"] 1
              Demo.cfg4 Demo.boot (Some "index exists") H eq_refl eq_refl)
    as (b' & s' & Hinit & _ & Htrace).
  assert (E : Init Demo.failing3 ["x"; "y"] 1 Demo.cfg4 Demo.boot =
              (Ok (Demo.initB.1.1, None), Demo.initB.2))
    by reflexivity.
  split; [exact E|]. rewrite E in Hinit. injection Hinit as <- <-.
  exact Htrace.
Defined.

(** The text of line 94 on the example of the specification. *)
Example Sprintf_query_example :
  Sprintf_query "ClearBit" "f" 42 7 =
  "ClearBit(frame='f', rowID=42, columnID=7)".
Proof. reflexivity. Qed.

(** The four queries of a run of [cfg4], and the ids behind them. *)
Example Demo_run_queries :
  idSequence Demo.cfg4 1 = [(1086, 5018); (1076, 5006); (1006, 5032); (1044, 5020)] /\
  exec_queries
    (trace (Run Demo.quietWorld Demo.background Demo.initA.1.1 Demo.initA.2).2) =
  [ "SetBit(frame='f', rowID=1086, columnID=5018)";
    "SetBit(frame='f', rowID=1076, columnID=5006)";
    "SetBit(frame='f', rowID=1006, columnID=5032)";
    "SetBit(frame='f', rowID=1044, columnID=5020)" ].
Proof. split; vm_compute; reflexivity. Qed.

(** C10 on the configuration before [Init]. *)
Lemma Run_without_client_witness :
  client (hasClient Demo.cfg4) = None /\
  Run Demo.quietWorld Demo.background Demo.cfg4 Demo.boot =
    (Ok {["error" := VError "No client set for Zipf"]}, Demo.boot).
Proof.
  split; [reflexivity|].
  exact (Run_without_client Demo.quietWorld Demo.background Demo.cfg4
           Demo.boot eq_refl).
Defined.

(** C8 on a cancelled context: the four calls carry it, none fails, and
    the run with a live context makes the same four. *)
Lemma Run_never_checks_context_witness :
  ignores_context Demo.quietWorld Demo.cancelled Demo.background /\
  exists evs,
    extends Demo.initA.2
      (Run Demo.quietWorld Demo.cancelled Demo.initA.1.1 Demo.initA.2).2 evs /\
    extends Demo.initA.2
      (Run Demo.quietWorld Demo.background Demo.initA.1.1 Demo.initA.2).2
      (with_context Demo.background <$> evs) /\
    Forall (fun cl => call_ctx cl = Demo.cancelled) (exec_calls evs) /\
    (Run Demo.quietWorld Demo.cancelled Demo.initA.1.1 Demo.initA.2).1 =
    (Run Demo.quietWorld Demo.background Demo.initA.1.1 Demo.initA.2).1 /\
    exec_errors evs = [None; None; None; None].
Proof.
  assert (H : ignores_context Demo.quietWorld Demo.cancelled Demo.background)
    by (intros n c i q f; reflexivity).
  split; [exact H|].
  destruct (Run_never_checks_context Demo.quietWorld Demo.cancelled
              Demo.background Demo.initA.1.1 Demo.initA.2)
    as (evs & Hext & Hctx & Hsame & Hok & _).
  destruct (Hsame H) as (Hext2 & Ho & _).
  exists evs. split; [exact Hext|]. split; [exact Hext2|].
  split; [exact Hctx|]. split; [exact Ho|].
  assert (Hm : (Run Demo.quietWorld Demo.cancelled Demo.initA.1.1
                  Demo.initA.2).1 = Ok {["count" := VInt 4]})
    by (vm_compute; reflexivity).
  destruct (Hok _ Hm) as [(Hc & _)|[(_ & Hall)|(k & e & _ & _ & Hmap)]].
  - discriminate Hc.
  - exact Hall.
  - apply (f_equal (fun m : gmap string value => m !! "count")) in Hmap.
    vm_compute in Hmap. discriminate Hmap.
Defined.

(** C8, as stated, fails: with a cancelled context and a server that
    answers, [Run] goes through all four iterations, makes four calls and
    returns the statistics of the four, with no sign of the cancellation. *)
Lemma Run_cancelled_context_runs_all :
  ctx_Err Demo.cancelled = Some "context canceled" /\
  Iterations Demo.initA.1.1 = 4 /\
  (Run Demo.quietWorld Demo.cancelled Demo.initA.1.1 Demo.initA.2).1 =
    Ok {["count" := VInt 4]} /\
  nexec (Run Demo.quietWorld Demo.cancelled Demo.initA.1.1 Demo.initA.2).2 =
    4%nat /\
  exec_errors
    (trace (Run Demo.quietWorld Demo.cancelled Demo.initA.1.1 Demo.initA.2).2) =
    [None; None; None; None].
Proof. repeat split; vm_compute; reflexivity. Qed.

(** C3 on the scenario of the specification: ten iterations, the fifth
    call fails. *)
Lemma Run_stops_at_first_error_witness :
  ZipfContract (L := Demo.lib) /\
  Ready Demo.init10.1.1 Demo.init10.2 Demo.rowSampler Demo.colSampler
        Demo.rowPerm Demo.colPerm (43 : Rand (Library := Demo.lib)) /\
  Matched Demo.rowSampler Demo.rowPerm /\
  Matched Demo.colSampler Demo.colPerm /\
  client (hasClient Demo.init10.1.1) = Some ("h" : Client (Library := Demo.lib)) /\
  (1 <= 5)%nat /\
  Z.of_nat 5 <= Iterations Demo.init10.1.1 /\
  fails_on_call Demo.failing5 ("h" : Client (Library := Demo.lib))
    (nexec Demo.init10.2) 5 "connection refused" /\
  exists s' evs,
    Run Demo.failing5 Demo.background Demo.init10.1.1 Demo.init10.2 =
      (Ok {["error" := VString "connection refused"]}, s') /\
    extends Demo.init10.2 s' evs /\
    exec_errors evs = [None; None; None; None; Some "connection refused"] /\
    length (exec_calls evs) = 5%nat.
Proof.
  assert (HM1 : Matched Demo.rowSampler Demo.rowPerm)
    by (split; [cbn; unfold Int64.max; lia|reflexivity]).
  assert (HM2 : Matched Demo.colSampler Demo.colPerm)
    by (split; [cbn; unfold Int64.max; lia|reflexivity]).
  assert (Hk : Z.of_nat 5 <= Iterations Demo.init10.1.1)
    by (apply Z.leb_le; reflexivity).
  assert (Hf : fails_on_call Demo.failing5 ("h" : Client (Library := Demo.lib))
                 (nexec Demo.init10.2) 5 "connection refused").
  { change (nexec Demo.init10.2) with O. split.
    - intros j ctx i q f Hj. cbn.
      destruct (Nat.eqb_spec j 4); [lia|reflexivity].
    - intros ctx i q f. reflexivity. }
  split; [exact Demo_ZipfContract|]. split; [exact Demo_Ready10|].
  split; [exact HM1|]. split; [exact HM2|]. split; [reflexivity|].
  assert (H1 : (1 <= 5)%nat) by lia.
  split; [exact H1|]. split; [exact Hk|]. split; [exact Hf|].
  destruct (Run_stops_at_first_error Demo.failing5 Demo.background
              Demo.init10.1.1 Demo.init10.2 "h" _ _ _ _ _ 5 "connection refused"
              Demo_ZipfContract Demo_Ready10 HM1 HM2 eq_refl H1 Hk Hf)
    as (s' & evs & Hrun & Hext & Herr & Hlen & _).
  exists s', evs. repeat split; assumption.
Defined.

(** C6 on the state [Init] leaves for four iterations: four queries are
    sent, with these texts. *)
Lemma Run_query_text_witness :
  Ready Demo.initA.1.1 Demo.initA.2 Demo.rowSampler Demo.colSampler
        Demo.rowPerm Demo.colPerm (43 : Rand (Library := Demo.lib)) /\
  client (hasClient Demo.initA.1.1) <> None /\
  exists evs,
    extends Demo.initA.2
      (Run Demo.quietWorld Demo.background Demo.initA.1.1 Demo.initA.2).2 evs /\
    Forall (fun e => e = None) (exec_errors evs) /\
    length (exec_calls evs) = 4%nat /\
    exec_queries evs =
      [ "SetBit(frame='f', rowID=1086, columnID=5018)";
        "SetBit(frame='f', rowID=1076, columnID=5006)";
        "SetBit(frame='f', rowID=1006, columnID=5032)";
        "SetBit(frame='f', rowID=1044, columnID=5020)" ].
Proof.
  assert (Hc : client (hasClient Demo.initA.1.1) <> None) by discriminate.
  split; [exact Demo_Ready4|]. split; [exact Hc|].
  destruct (Run_query_text Demo.quietWorld Demo.background Demo.initA.1.1
              Demo.initA.2 _ _ _ _ _ Demo_Ready4)
    as (evs & Op & Hext & Hset & _ & _ & _ & Hall & _).
  assert (He : exec_errors evs = [None; None; None; None]).
  { assert (T : exec_errors
                  (trace (Run Demo.quietWorld Demo.background Demo.initA.1.1
                            Demo.initA.2).2) = [None; None; None; None])
      by (vm_compute; reflexivity).
    rewrite Hext in T. unfold exec_errors in T.
    rewrite exec_calls_app, fmap_app in T. exact T. }
  assert (HF : Forall (fun e : option string => e = None) (exec_errors evs))
    by (rewrite He; repeat constructor).
  destruct (Hall Hc HF) as [Hlen Hq].
  exists evs. split; [exact Hext|]. split; [exact HF|].
  split; [exact Hlen|].
  rewrite Hq, (Hset eq_refl). vm_compute. reflexivity.
Defined.

(** C1 on two runs of one configuration: different hosts, one server that
    answers and one whose third query fails, a live and a cancelled
    context. *)
Lemma Init_Run_deterministic_witness :
  same_config Demo.cfg4 Demo.cfg4 /\
  Init Demo.quietWorld ["h"] 1 Demo.cfg4 Demo.boot =
    (Ok (Demo.initA.1.1, Demo.initA.1.2), Demo.initA.2) /\
  Init Demo.failing3 ["x"; "y"] 1 Demo.cfg4 Demo.boot =
    (Ok (Demo.initB.1.1, Demo.initB.1.2), Demo.initB.2) /\
  exists evs1 evs2,
    extends Demo.initA.2
      (Run Demo.quietWorld Demo.background Demo.initA.1.1 Demo.initA.2).2 evs1 /\
    extends Demo.initB.2
      (Run Demo.failing3 Demo.cancelled Demo.initB.1.1 Demo.initB.2).2 evs2 /\
    exec_queries evs1 =
      query_text Demo.initA.1.1 <$>
        take (length (exec_calls evs1)) (idSequence Demo.cfg4 1) /\
    exec_queries evs2 =
      query_text Demo.initB.1.1 <$>
        take (length (exec_calls evs2)) (idSequence Demo.cfg4 1).
Proof.
  assert (Hc : same_config Demo.cfg4 Demo.cfg4) by (repeat split).
  assert (HA : Init Demo.quietWorld ["h"] 1 Demo.cfg4 Demo.boot =
               (Ok (Demo.initA.1.1, Demo.initA.1.2), Demo.initA.2))
    by reflexivity.
  assert (HB : Init Demo.failing3 ["x"; "y"] 1 Demo.cfg4 Demo.boot =
               (Ok (Demo.initB.1.1, Demo.initB.1.2), Demo.initB.2))
    by reflexivity.
  split; [exact Hc|]. split; [exact HA|]. split; [exact HB|].
  destruct (Init_Run_deterministic Demo.quietWorld Demo.quietWorld
              Demo.failing3 Demo.failing3 ["h"] ["x"; "y"]
              Demo.background Demo.cancelled 1 Demo.cfg4 Demo.cfg4
              _ _ _ _ Demo.boot Demo.boot _ _ Hc HA HB)
    as (_ & evs1 & evs2 & X1 & X2 & Q1 & Q2 & _).
  exists evs1, evs2. repeat split; assumption.
Defined.

(** C9 on the same configuration. *)
Lemma Run_ranks_in_range_witness :
  ZipfContract (L := Demo.lib) /\
  well_typed Demo.cfg4 /\
  Init Demo.quietWorld ["h"] 1 Demo.cfg4 Demo.boot =
    (Ok (Demo.initA.1.1, Demo.initA.1.2), Demo.initA.2) /\
  bitmapRng Demo.initA.1.1 <> None /\ profileRng Demo.initA.1.1 <> None /\
  bitmapPerm Demo.initA.1.1 <> None /\ profilePerm Demo.initA.1.1 <> None /\
  is_Ok (Run Demo.quietWorld Demo.background Demo.initA.1.1 Demo.initA.2).1 /\
  exists evs,
    extends Demo.initA.2
      (Run Demo.quietWorld Demo.background Demo.initA.1.1 Demo.initA.2).2 evs /\
    Forall (rank_ok Demo.initA.1.1) evs.
Proof.
  assert (Hw : well_typed Demo.cfg4)
    by (repeat split; cbn; unfold Int64.min, Int64.max; lia).
  assert (HA : Init Demo.quietWorld ["h"] 1 Demo.cfg4 Demo.boot =
               (Ok (Demo.initA.1.1, Demo.initA.1.2), Demo.initA.2))
    by reflexivity.
  assert (N1 : bitmapRng Demo.initA.1.1 <> None) by discriminate.
  assert (N2 : profileRng Demo.initA.1.1 <> None) by discriminate.
  assert (N3 : bitmapPerm Demo.initA.1.1 <> None) by discriminate.
  assert (N4 : profilePerm Demo.initA.1.1 <> None) by discriminate.
  split; [exact Demo_ZipfContract|]. split; [exact Hw|]. split; [exact HA|].
  split; [exact N1|]. split; [exact N2|]. split; [exact N3|]. split; [exact N4|].
  exact (Run_ranks_in_range Demo.quietWorld Demo.quietWorld ["h"] 1 Demo.cfg4
           Demo.boot _ _ _ Demo.background Demo_ZipfContract Hw HA N1 N2 N3 N4).
Defined.

(** * Further properties of [Init] *)

Lemma Int64_add_add (x a a' : Z) :
  Int64.add (Int64.add x a) a' = Int64.add x (a + a').
Proof.
  unfold Int64.add, Int64.wrap. f_equal.
  replace ((x + a + 2 ^ 63) mod 2 ^ 64 - 2 ^ 63 + a' + 2 ^ 63)
    with ((x + a + 2 ^ 63) mod 2 ^ 64 + a') by lia.
  rewrite Zplus_mod_idemp_l. f_equal. lia.
Qed.

Lemma Int64_add_inj (x a1 a2 : Z) :
  Int64.in_range a1 -> Int64.in_range a2 ->
  Int64.add x a1 = Int64.add x a2 -> a1 = a2.
Proof.
  unfold Int64.in_range, Int64.min, Int64.max, Int64.add, Int64.wrap.
  intros H1 H2 H.
  assert (E : (x + a1 + 2 ^ 63) mod 2 ^ 64 = (x + a2 + 2 ^ 63) mod 2 ^ 64) by lia.
  rewrite (Z.mod_eq (x + a1 + 2 ^ 63)), (Z.mod_eq (x + a2 + 2 ^ 63)) in E by lia.
  lia.
Qed.

Lemma Int64_pred_to_uint64_wrap (N : Z) :
  Int64.min < N <= 0 ->
  Int64.to_uint64 (Int64.sub N 1) = 2 ^ 64 + N - 1.
Proof.
  intros HN. unfold Int64.sub. rewrite Int64_wrap_in_range.
  - unfold Int64.to_uint64, Int64.min in *.
    rewrite <- (Z.mod_add (N - 1) 1 (2 ^ 64)) by lia.
    rewrite Z.mod_small; lia.
  - unfold Int64.in_range, Int64.min, Int64.max in *. lia.
Qed.

Section InitMore.
Context `{L : Library}.

Lemma trace_log (s : Sys) (evs : list Event) :
  trace (log s evs) = trace s ++ evs.
Proof. reflexivity. Qed.

(** The configuration fields of the object [Init] leaves. *)
Lemma configured_parameters (b : Zipf) (a : Z) (l : loc) (hc : HasClient) :
  let b' := set_hasClient (configured b a l) hc in
  BitmapExponent b' = BitmapExponent b /\ BitmapRatio b' = BitmapRatio b /\
  ProfileExponent b' = ProfileExponent b /\ ProfileRatio b' = ProfileRatio b.
Proof. destruct b. cbn. repeat split. Qed.

(** X1.  With a supported operation and an empty host list [Init] panics
    on [hosts[0]]: the generators are built by then, the index is not
    provisioned and the client is not initialised. *)
Theorem Init_without_hosts_panics (w : World) (a : Z) (b : Zipf) (s : Sys) :
  valid_operation (Operation b) ->
  Init w [] a b s =
    (Panic "index out of range [0] with length 0", after_construction b a s) /\
  trace (after_construction b a s) = trace s ++ construction_events b a.
Proof.
  intros Hop. rewrite Init_eq. cbv zeta.
  apply invalid_operation_false in Hop. rewrite Hop. split; reflexivity.
Qed.

(** X2.  [Init] stores the agent's seed back into the object: a second
    [Init] of the same object, for agent [a'], seeds as a first [Init]
    would for agent [a + a'], so the ids of the runs that follow are those
    of agent [a + a']. *)
Theorem Init_again_shifts_seed (w : World) (hosts : list string) (a a' : Z)
    (b : Zipf) (s : Sys) (b' : Zipf) (e : option string) (s' : Sys) :
  Init w hosts a b s = (Ok (b', e), s') ->
  Seed b' = Int64.add (Seed b) a /\
  construction_events b' a' = construction_events b (a + a') /\
  idSequence b' a' = idSequence b (a + a').
Proof.
  intros Hinit.
  destruct (Init_post _ _ _ _ _ _ _ _ Hinit) as ((hc & ->) & _).
  destruct (configured_fields b a (length (heap s)) hc)
    as (_ & (B1 & B2 & B3 & B4 & B5) & (_ & _ & _ & B6 & _)).
  destruct (configured_parameters b a (length (heap s)) hc)
    as (P1 & P2 & P3 & P4).
  split; [exact B6|].
  unfold construction_events, idSequence, absolute.
  rewrite B1, B2, B3, B4, B5, B6, P1, P2, P3, P4, Int64_add_add.
  split; reflexivity.
Qed.

(** X3.  Whatever [Init] returns, it makes no query, does not read the
    clock, and leaves every stream that existed as it was: it only adds
    the new stream, from which nothing has been drawn yet. *)
Theorem Init_touches_no_stream (w : World) (hosts : list string) (a : Z)
    (b : Zipf) (s : Sys) :
  let s' := (Init w hosts a b s).2 in
  heap s' = heap s ++ [rand_New (Int64.add (Seed b) a)] /\
  (forall l r, heap s !! l = Some r -> heap s' !! l = Some r) /\
  nexec s' = nexec s /\ nclock s' = nclock s /\
  exists evs, extends s s' evs /\ exec_calls evs = [].
Proof.
  cbv zeta. rewrite Init_eq. cbv zeta.
  assert (Hl : forall l r, heap s !! l = Some r ->
               (heap s ++ [rand_New (Int64.add (Seed b) a)]) !! l = Some r).
  { intros l r H. rewrite lookup_app_l; [exact H|]. eapply lookup_lt_Some, H. }
  destruct (invalid_operation (Operation b)); [|destruct hosts as [|host0 rest]];
    cbn [snd]; (split; [reflexivity|]); (split; [exact Hl|]);
    (split; [reflexivity|]); (split; [reflexivity|]).
  - exists (construction_events b a). split; reflexivity.
  - exists (construction_events b a). split; reflexivity.
  - exists (construction_events b a ++ connection_events w (host0 :: rest) host0 a b).
    split.
    + unfold extends, after_construction. rewrite !trace_log.
      now rewrite <- app_assoc.
    + unfold connection_events.
      destruct (initIndex w host0 (Index b) (Frame b)); reflexivity.
Qed.

(** X4.  Two agents whose numbers differ (both of type [int]) seed their
    streams differently. *)
Theorem Init_agents_seed_differently (w1 w2 : World) (hosts1 hosts2 : list string)
    (a1 a2 : Z) (b : Zipf) (s1 s2 : Sys) (b1 b2 : Zipf)
    (e1 e2 : option string) (s1' s2' : Sys) :
  Int64.in_range a1 -> Int64.in_range a2 -> a1 <> a2 ->
  Init w1 hosts1 a1 b s1 = (Ok (b1, e1), s1') ->
  Init w2 hosts2 a2 b s2 = (Ok (b2, e2), s2') ->
  Seed b1 <> Seed b2 /\
  heap s1' = heap s1 ++ [rand_New (Seed b1)] /\
  heap s2' = heap s2 ++ [rand_New (Seed b2)].
Proof.
  intros R1 R2 Hne H1 H2.
  destruct (Init_post _ _ _ _ _ _ _ _ H1) as ((hc1 & ->) & Hh1 & _).
  destruct (Init_post _ _ _ _ _ _ _ _ H2) as ((hc2 & ->) & Hh2 & _).
  destruct (configured_fields b a1 (length (heap s1)) hc1)
    as (_ & _ & (_ & _ & _ & S1 & _)).
  destruct (configured_fields b a2 (length (heap s2)) hc2)
    as (_ & _ & (_ & _ & _ & S2 & _)).
  rewrite S1, S2. split; [|split; assumption].
  intros E. apply Hne. eapply Int64_add_inj; eassumption.
Qed.

(** X5.  The column permutation of agent [a] has the seed of the row
    permutation of agent [a + 1]: when the two id ranges are equal, the
    two agents hold the same permutation generator. *)
Theorem Init_neighbour_agents_share_permutation (w1 w2 : World)
    (hosts1 hosts2 : list string) (a : Z) (b : Zipf) (s1 s2 : Sys)
    (b1 b2 : Zipf) (e1 e2 : option string) (s1' s2' : Sys) :
  ProfileIDRange b = BitmapIDRange b ->
  Init w1 hosts1 a b s1 = (Ok (b1, e1), s1') ->
  Init w2 hosts2 (a + 1) b s2 = (Ok (b2, e2), s2') ->
  profilePerm b1 = bitmapPerm b2.
Proof.
  intros Hr H1 H2.
  destruct (Init_post _ _ _ _ _ _ _ _ H1) as ((hc1 & ->) & _).
  destruct (Init_post _ _ _ _ _ _ _ _ H2) as ((hc2 & ->) & _).
  destruct (configured_fields b a (length (heap s1)) hc1)
    as ((_ & _ & _ & F4) & _).
  destruct (configured_fields b (a + 1) (length (heap s2)) hc2)
    as ((_ & _ & F3 & _) & _).
  rewrite F4, F3, Hr, Int64_add_add. reflexivity.
Qed.

(** X6.  A row range [N] that is zero or negative is not rejected:
    whatever [Init] returns, it has asked [rand.NewZipf] for a row sampler
    with the bound [uint64(N - 1)], which wraps to [2^64 + N - 1], beyond
    every [int64]. *)
Theorem Init_nonpositive_range_wraps (w : World) (hosts : list string) (a : Z)
    (b : Zipf) (s : Sys) :
  Int64.min < BitmapIDRange b <= 0 ->
  Int64.max < 2 ^ 64 + BitmapIDRange b - 1 /\
  exists evs,
    extends s (Init w hosts a b s).2 evs /\
    In (EvNewZipf Bitmap (BitmapExponent b)
          (getZipfOffset (BitmapIDRange b) (BitmapExponent b) (BitmapRatio b))
          (2 ^ 64 + BitmapIDRange b - 1)) evs.
Proof.
  intros HN. split; [unfold Int64.min, Int64.max in *; lia|].
  assert (Hin : In (EvNewZipf Bitmap (BitmapExponent b)
                      (getZipfOffset (BitmapIDRange b) (BitmapExponent b)
                         (BitmapRatio b))
                      (2 ^ 64 + BitmapIDRange b - 1))
                   (construction_events b a)).
  { unfold construction_events.
    rewrite (Int64_pred_to_uint64_wrap (BitmapIDRange b)) by exact HN.
    right. left. reflexivity. }
  rewrite Init_eq. cbv zeta.
  destruct (invalid_operation (Operation b)); [|destruct hosts as [|host0 rest]];
    cbn [snd].
  - exists (construction_events b a). split; [reflexivity|exact Hin].
  - exists (construction_events b a). split; [reflexivity|exact Hin].
  - exists (construction_events b a ++ connection_events w (host0 :: rest) host0 a b).
    split.
    + unfold extends, after_construction. rewrite !trace_log.
      now rewrite <- app_assoc.
    + apply in_or_app. left. exact Hin.
Qed.

End InitMore.

(** * Further properties of [Run] *)

Section RunMore.
Context `{L : Library}.

Lemma nextIDs_nil_sampler (b : Zipf) (s : Sys) :
  bitmapRng b = None -> nextIDs b s = (Panic "rand: nil Zipf", s).
Proof. intros H. unfold nextIDs, bind. rewrite H. reflexivity. Qed.

Lemma Run_nil_sampler (w : World) (ctx : Context) (b : Zipf) (s : Sys)
    (c : Client) :
  client (hasClient b) = Some c -> bitmapRng b = None ->
  1 <= Iterations b ->
  Run w ctx b s = (Panic "rand: nil Zipf", s).
Proof.
  intros Hc Hg Hn. unfold Run. rewrite Hc.
  destruct (Z.to_nat (Iterations b)) as [|n] eqn:E; [lia|].
  rewrite Run_loop_unfold, nextIDs_nil_sampler by exact Hg. reflexivity.
Qed.

(** X7.  On an object that has a client but was never initialised, [Run]
    panics at its first draw when there is an iteration to run, having
    called nothing, and returns the empty statistics when [Iterations] is
    zero or negative. *)
Theorem Run_uninitialised (w : World) (ctx : Context) (b : Zipf) (s : Sys)
    (c : Client) :
  client (hasClient b) = Some c -> bitmapRng b = None ->
  (1 <= Iterations b -> Run w ctx b s = (Panic "rand: nil Zipf", s)) /\
  (Iterations b <= 0 -> Run w ctx b s = (Ok (AddToResults NewStats ∅), s)).
Proof.
  intros Hc Hg. split.
  - intros Hn. eapply Run_nil_sampler; eassumption.
  - intros Hn. unfold Run. rewrite Hc.
    replace (Z.to_nat (Iterations b)) with O by lia. reflexivity.
Qed.

(** X8.  A row exponent of 1 or less passes [Init], which leaves the row
    sampler [nil] ([rand.NewZipf] refuses the exponent); the first
    iteration of [Run] then panics before any query is sent. *)
Theorem Init_small_exponent_Run_panics (w w' : World) (hosts : list string)
    (a : Z) (b : Zipf) (s : Sys) (b' : Zipf) (e : option string) (s' : Sys)
    (ctx : Context) (c : Client) :
  PrimFloat.leb (BitmapExponent b) 1 = true ->
  Init w hosts a b s = (Ok (b', e), s') ->
  client (hasClient b') = Some c ->
  1 <= Iterations b ->
  bitmapRng b' = None /\
  Run w' ctx b' s' = (Panic "rand: nil Zipf", s').
Proof.
  intros Hexp Hinit Hc Hn.
  destruct (Init_post _ _ _ _ _ _ _ _ Hinit) as ((hc & Hb') & _).
  assert (Hg : bitmapRng b' = None).
  { subst b'.
    destruct (configured_fields b a (length (heap s)) hc) as ((F1 & _) & _).
    rewrite F1. unfold NewZipf. rewrite Hexp. reflexivity. }
  split; [exact Hg|]. eapply Run_nil_sampler; try eassumption.
  subst b'.
  destruct (configured_fields b a (length (heap s)) hc)
    as (_ & (_ & _ & _ & _ & B5) & _).
  rewrite B5. exact Hn.
Qed.

(** *** Runs on a state whose domain sizes match *)

Lemma permutedRanks_add g1 g2 p1 p2 :
  ZipfContract -> Matched g1 p1 -> Matched g2 p2 ->
  forall n m r,
  permutedRanks g1 g2 p1 p2 (n + m) r =
  permutedRanks g1 g2 p1 p2 n r ++
  permutedRanks g1 g2 p1 p2 m (advance g1 g2 n r).
Proof.
  intros HZ HM1 HM2. induction n as [|n IH]; intros m r; [reflexivity|].
  cbn [Nat.add permutedRanks advance].
  pose proof (HZ (z_q g1) (z_v g1) (z_imax g1) r) as Hd1.
  destruct (Zipf_Uint64 (z_q g1) (z_v g1) (z_imax g1) r) as [k1 r1].
  pose proof (HZ (z_q g2) (z_v g2) (z_imax g2) r1) as Hd2.
  cbn [fst snd] in *.
  destruct (Zipf_Uint64 (z_q g2) (z_v g2) (z_imax g2) r1) as [k2 r2].
  cbn [fst snd] in *.
  destruct (Next_in_range g1 p1 k1 HM1) as (_ & _ & ->);
    [destruct HM1; apply Hd1; lia|].
  destruct (Next_in_range g2 p2 k2 HM2) as (_ & _ & ->);
    [destruct HM2; apply Hd2; lia|].
  cbn. now rewrite IH.
Qed.

(** The loop with a client that never fails. *)
Lemma Run_loop_succeeds (w : World) (ctx : Context) (b : Zipf) (c : Client)
    (op : string) (res : gmap string value) g1 g2 p1 p2 :
  ZipfContract -> Matched g1 p1 -> Matched g2 p2 ->
  always_succeeds w c ->
  forall (n : nat) (st : Stats) (s : Sys) r,
  Ready b s g1 g2 p1 p2 r ->
  exists s' evs,
    Run_loop w ctx b c op res n st s =
      (Ok (AddToResults (st ++ durations w (nclock s) n) res), s') /\
    extends s s' evs /\
    exec_errors evs = replicate n None /\
    exec_queries evs = query_of op b <$> permutedRanks g1 g2 p1 p2 n r /\
    nexec s' = (nexec s + n)%nat /\ nclock s' = (nclock s + 2 * n)%nat /\
    Ready b s' g1 g2 p1 p2 (advance g1 g2 n r).
Proof.
  intros HZ HM1 HM2 Hall. induction n as [|n IH]; intros st s r HR.
  - exists s, []. cbn. unfold ret. rewrite app_nil_r.
    split; [reflexivity|]. split; [apply extends_refl|].
    repeat split; try reflexivity; try lia; try apply HR.
    all: destruct HR as (?&?&?&?&?&?); assumption.
  - rewrite (Run_loop_S _ _ _ _ _ _ _ _ _ _ _ _ _ _ HR). cbv zeta.
    cbn [permutedRanks advance durations].
    pose proof (HZ (z_q g1) (z_v g1) (z_imax g1) r) as Hd1.
    destruct (Zipf_Uint64 (z_q g1) (z_v g1) (z_imax g1) r) as [k1 r1].
    pose proof (HZ (z_q g2) (z_v g2) (z_imax g2) r1) as Hd2.
    cbn [fst snd] in *.
    destruct (Zipf_Uint64 (z_q g2) (z_v g2) (z_imax g2) r1) as [k2 r2].
    cbn [fst snd] in *.
    destruct (Next_in_range g1 p1 k1 HM1) as (_ & _ & ->);
      [destruct HM1; apply Hd1; lia|].
    destruct (Next_in_range g2 p2 k2 HM2) as (_ & _ & ->);
      [destruct HM2; apply Hd2; lia|].
    rewrite Hall.
    match goal with |- context [Run_loop w ctx b c op res n ?st' ?s'] =>
      destruct (IH st' s' r2)
        as (s'' & evs & Hrun & Hext & Herr & Hq & Hn & Ht & HR')
    end; [eapply Ready_step_state, HR|].
    rewrite Hrun. apply extends_step_state in Hext.
    eexists s'', _. split.
    { unfold Stats_Add. rewrite <- app_assoc. reflexivity. }
    split; [exact Hext|].
    unfold exec_errors, exec_queries in *.
    rewrite !exec_calls_app, !fmap_app, Herr, Hq. cbn.
    repeat split; try reflexivity; try apply HR'.
    + rewrite Hn. cbn. lia.
    + rewrite Ht. cbn. lia.
Qed.

(** After the loop the samplers are still in place, and their stream has
    moved by as many iterations as calls were made. *)
Lemma Run_loop_resumes (w : World) (ctx : Context) (b : Zipf) (c : Client)
    (op : string) (res : gmap string value) g1 g2 p1 p2 :
  ZipfContract -> Matched g1 p1 -> Matched g2 p2 ->
  forall (n : nat) (st : Stats) (s : Sys) r,
  Ready b s g1 g2 p1 p2 r ->
  exists evs,
    extends s (Run_loop w ctx b c op res n st s).2 evs /\
    (length (exec_calls evs) <= n)%nat /\
    Ready b (Run_loop w ctx b c op res n st s).2 g1 g2 p1 p2
          (advance g1 g2 (length (exec_calls evs)) r).
Proof.
  intros HZ HM1 HM2. induction n as [|n IH]; intros st s r HR.
  - exists []. split; [apply extends_refl|]. split; [reflexivity|exact HR].
  - rewrite (Run_loop_S _ _ _ _ _ _ _ _ _ _ _ _ _ _ HR). cbv zeta.
    pose proof (HZ (z_q g1) (z_v g1) (z_imax g1) r) as Hd1.
    destruct (Zipf_Uint64 (z_q g1) (z_v g1) (z_imax g1) r) as [k1 r1] eqn:E1.
    pose proof (HZ (z_q g2) (z_v g2) (z_imax g2) r1) as Hd2.
    cbn [fst snd] in *.
    destruct (Zipf_Uint64 (z_q g2) (z_v g2) (z_imax g2) r1) as [k2 r2] eqn:E2.
    cbn [fst snd] in *.
    destruct (Next_in_range g1 p1 k1 HM1) as (_ & _ & ->);
      [destruct HM1; apply Hd1; lia|].
    destruct (Next_in_range g2 p2 k2 HM2) as (_ & _ & ->);
      [destruct HM2; apply Hd2; lia|].
    assert (Hadv : forall k, advance g1 g2 (S k) r = advance g1 g2 k r2).
    { intros k. cbn [advance]. rewrite E1. cbn [snd]. rewrite E2. reflexivity. }
    destruct (ExecuteQuery w (nexec s) c ctx (Index b) _ true) as [e|].
    + eexists. split; [reflexivity|]. cbn [snd].
      rewrite !exec_calls_app. cbn [exec_calls omap list_omap exec_call app length].
      split; [lia|]. rewrite (Hadv O). eapply Ready_step_state, HR.
    + match goal with |- context [Run_loop w ctx b c op res n ?st' ?s'] =>
        destruct (IH st' s' r2) as (evs & Hext & Hlen & HR')
      end; [eapply Ready_step_state, HR|].
      apply extends_step_state in Hext.
      eexists. split; [exact Hext|].
      rewrite !exec_calls_app.
      cbn [exec_calls omap list_omap exec_call app length].
      split; [lia|]. rewrite Hadv. exact HR'.
Qed.

(** The loop writes to the stream of its samplers and to no other. *)
Lemma Run_loop_frame (w : World) (ctx : Context) (b : Zipf) (c : Client)
    (op : string) (res : gmap string value) g1 g2 p1 p2 (l' : loc) :
  l' <> z_r g1 ->
  forall (n : nat) (st : Stats) (s : Sys) r,
  Ready b s g1 g2 p1 p2 r ->
  heap (Run_loop w ctx b c op res n st s).2 !! l' = heap s !! l'.
Proof.
  intros Hl. induction n as [|n IH]; intros st s r HR; [reflexivity|].
  rewrite (Run_loop_S _ _ _ _ _ _ _ _ _ _ _ _ _ _ HR). cbv zeta.
  assert (Hstep : forall r' evs i j,
            heap (step_state s (z_r g1) r' evs i j) !! l' = heap s !! l').
  { intros. cbn. apply list_lookup_insert_ne. congruence. }
  destruct (Next p1 _); [|apply Hstep].
  destruct (Next p2 _); [|apply Hstep].
  destruct (ExecuteQuery w (nexec s) c ctx (Index b) _ true); [apply Hstep|].
  erewrite IH; [apply Hstep|]. eapply Ready_step_state, HR.
Qed.

End RunMore.

Section RunTheorems.
Context `{L : Library}.


(** X10.  [Run] leaves the generators in place and their stream moved by
    one iteration per call made, the failed call included: a later [Run]
    goes on with the next id pair and does not send a failed pair
    again. *)
Theorem Run_moves_stream_by_calls (w : World) (ctx : Context) (b : Zipf)
    (s : Sys) g1 g2 p1 p2 r :
  ZipfContract ->
  Ready b s g1 g2 p1 p2 r -> Matched g1 p1 -> Matched g2 p2 ->
  exists evs,
    extends s (Run w ctx b s).2 evs /\
    Z.of_nat (length (exec_calls evs)) <= Z.max 0 (Iterations b) /\
    Ready b (Run w ctx b s).2 g1 g2 p1 p2
          (advance g1 g2 (length (exec_calls evs)) r).
Proof.
  intros HZ HR HM1 HM2. unfold Run. destruct (client (hasClient b)) as [c|].
  - destruct (Run_loop_resumes w ctx b c (operation_of (Operation b)) ∅
                g1 g2 p1 p2 HZ HM1 HM2 (Z.to_nat (Iterations b)) NewStats s r HR)
      as (evs & Hext & Hlen & HR').
    exists evs. split; [exact Hext|]. split; [lia|exact HR'].
  - exists []. split; [apply extends_refl|]. split; [cbn; lia|exact HR].
Qed.

(** X11.  Two runs in a row without [Init] in between do not repeat the
    ids: with a client that never fails, the second run sends the ids that
    follow those of the first, and the two together send the first
    [2 * Iterations] pairs of the stream. *)
Theorem Run_twice_continues (w : World) (ctx : Context) (b : Zipf)
    (s : Sys) (c : Client) g1 g2 p1 p2 r :
  ZipfContract ->
  Ready b s g1 g2 p1 p2 r -> Matched g1 p1 -> Matched g2 p2 ->
  client (hasClient b) = Some c ->
  always_succeeds w c ->
  let n := Z.to_nat (Iterations b) in
  let op := operation_of (Operation b) in
  exists evs1 evs2,
    extends s (Run w ctx b s).2 evs1 /\
    extends (Run w ctx b s).2 (Run w ctx b (Run w ctx b s).2).2 evs2 /\
    exec_queries evs1 = query_of op b <$> permutedRanks g1 g2 p1 p2 n r /\
    exec_queries evs2 =
      query_of op b <$> permutedRanks g1 g2 p1 p2 n (advance g1 g2 n r) /\
    exec_queries evs1 ++ exec_queries evs2 =
      query_of op b <$> permutedRanks g1 g2 p1 p2 (n + n) r.
Proof.
  intros HZ HR HM1 HM2 Hc Hall n op. unfold Run. rewrite Hc. fold n op.
  destruct (Run_loop_succeeds w ctx b c op ∅ g1 g2 p1 p2 HZ HM1 HM2 Hall
              n NewStats s r HR)
    as (s1 & evs1 & Hrun1 & Hext1 & _ & Hq1 & _ & _ & HR1).
  rewrite Hrun1. cbn [snd].
  destruct (Run_loop_succeeds w ctx b c op ∅ g1 g2 p1 p2 HZ HM1 HM2 Hall
              n NewStats s1 _ HR1)
    as (s2 & evs2 & Hrun2 & Hext2 & _ & Hq2 & _ & _ & _).
  rewrite Hrun2. cbn [snd].
  exists evs1, evs2. split; [exact Hext1|]. split; [exact Hext2|].
  split; [exact Hq1|]. split; [exact Hq2|].
  rewrite Hq1, Hq2, <- fmap_app.
  now rewrite (permutedRanks_add g1 g2 p1 p2 HZ HM1 HM2).
Qed.

(** X12.  [Run] draws from the stream of its own samplers only: another
    benchmark object of the same process, with its own stream, finds its
    generators and its stream as they were. *)
Theorem Run_leaves_other_streams (w : World) (ctx : Context) (b b2 : Zipf)
    (s : Sys) g1 g2 p1 p2 r h1 h2 q1 q2 r2 :
  Ready b s g1 g2 p1 p2 r ->
  Ready b2 s h1 h2 q1 q2 r2 ->
  z_r h1 <> z_r g1 ->
  Ready b2 (Run w ctx b s).2 h1 h2 q1 q2 r2.
Proof.
  intros HR (H1 & H2 & H3 & H4 & H5 & H6) Hne.
  repeat split; try assumption.
  unfold Run. destruct (client (hasClient b)) as [c|]; [|exact H6].
  rewrite (Run_loop_frame w ctx b c _ _ g1 g2 p1 p2 (z_r h1) Hne _ _ _ r HR).
  exact H6.
Qed.

Lemma permutedRanks_in_domain g1 g2 p1 p2 :
  PermuteRange ->
  forall n r,
  Forall (fun ids : Z * Z => 0 <= ids.1 < pg_N p1 /\ 0 <= ids.2 < pg_N p2)
         (permutedRanks g1 g2 p1 p2 n r).
Proof.
  intros HP. induction n as [|n IH]; intros r; [constructor|].
  cbn [permutedRanks].
  destruct (Zipf_Uint64 (z_q g1) (z_v g1) (z_imax g1) r) as [k1 r1].
  destruct (Zipf_Uint64 (z_q g2) (z_v g2) (z_imax g2) r1) as [k2 r2].
  unfold Next.
  destruct (Z.leb_spec 0 (Int64.of_uint64 k1)),
           (Z.ltb_spec (Int64.of_uint64 k1) (pg_N p1)); cbn; try constructor.
  destruct (Z.leb_spec 0 (Int64.of_uint64 k2)),
           (Z.ltb_spec (Int64.of_uint64 k2) (pg_N p2)); cbn; try constructor.
  - cbn. split; apply HP; lia.
  - apply IH.
Qed.

(** X13.  When the permutation maps its domain into itself and the two
    windows [[base, base + range)] fit in [int64], every query [Run] sends
    after [Init] names a row id and a column id inside their windows. *)
Theorem Run_ids_in_window (w w' : World) (hosts : list string) (a : Z)
    (b : Zipf) (s : Sys) (b' : Zipf) (e : option string) (s' : Sys)
    (ctx : Context) :
  PermuteRange -> well_typed b ->
  BaseBitmapID b + BitmapIDRange b - 1 <= Int64.max ->
  BaseProfileID b + ProfileIDRange b - 1 <= Int64.max ->
  Init w hosts a b s = (Ok (b', e), s') ->
  exists evs ids,
    extends s' (Run w' ctx b' s').2 evs /\
    exec_queries evs = query_text b' <$> ids /\
    Forall (in_window b) ids.
Proof.
  intros HP (_ & HrB & HrP & HbB & HbP) HwB HwP Hinit.
  destruct (Init_Run_ids w w' _ _ _ _ _ _ _ ctx Hinit) as (evs & Hext & Hq & _).
  exists evs, (take (length (exec_calls evs)) (idSequence b a)).
  split; [exact Hext|]. split; [exact Hq|].
  apply Forall_take. unfold idSequence.
  destruct (NewZipf _ _ _ _) as [g1|]; [|constructor].
  destruct (NewZipf _ _ _ _) as [g2|]; [|constructor].
  destruct (NewPermutationGenerator (BitmapIDRange b) _) as [p1|] eqn:E1;
    [|constructor].
  destruct (NewPermutationGenerator (ProfileIDRange b) _) as [p2|] eqn:E2;
    [|constructor].
  apply NewPermutationGenerator_Some in E1, E2.
  destruct E1 as [-> N1], E2 as [-> N2].
  apply Forall_fmap. eapply Forall_impl; [apply permutedRanks_in_domain, HP|].
  intros [i1 i2] [Hi1 Hi2]. cbn in Hi1, Hi2.
  unfold Int64.in_range, Int64.min, Int64.max in *.
  unfold in_window, absolute, Int64.add, compose. cbn [fst snd].
  rewrite (Int64_wrap_in_range i1), (Int64_wrap_in_range i2)
    by (unfold Int64.in_range, Int64.min, Int64.max; lia).
  rewrite !Int64_wrap_in_range
    by (unfold Int64.in_range, Int64.min, Int64.max; lia).
  lia.
Qed.

End RunTheorems.

(** * The text of a query *)

Lemma append_inj_l (s a b : string) : s +:+ a = s +:+ b -> a = b.
Proof. induction s as [|c s IH]; cbn; [auto|]. intros [= H]. auto. Qed.

(** Two texts that agree, each a block of characters of a class followed
    by one and the same character outside the class, agree block by
    block. *)
Lemma split_unique (P : Ascii.ascii -> bool) (c : Ascii.ascii)
    (s1 s2 t1 t2 : string) :
  string_all P s1 = true -> string_all P s2 = true -> P c = false ->
  s1 +:+ String c t1 = s2 +:+ String c t2 -> s1 = s2 /\ t1 = t2.
Proof.
  intros H1 H2 Hc. revert s2 H2.
  induction s1 as [|a1 s1 IH]; intros [|a2 s2] H2; cbn in *.
  - intros [= ->]. auto.
  - intros [= -> _]. apply andb_prop in H2 as [H2 _]. congruence.
  - intros [= -> _]. apply andb_prop in H1 as [H1 _]. congruence.
  - intros [= -> H]. apply andb_prop in H1 as [_ H1].
    apply andb_prop in H2 as [_ H2].
    destruct (IH H1 s2 H2 H) as [-> ->]. auto.
Qed.

Lemma string_of_uint_chars (d : Decimal.uint) :
  string_all is_num_char (NilEmpty.string_of_uint d) = true.
Proof. induction d; cbn [NilEmpty.string_of_uint string_all]; auto. Qed.

Lemma fmt_d_chars (z : Z) : string_all is_num_char (fmt_d z) = true.
Proof.
  unfold fmt_d, NilZero.string_of_int, NilZero.string_of_uint.
  destruct (Z.to_int z) as [d|d]; destruct d;
    try reflexivity; cbn [string_all];
    rewrite ?string_of_uint_chars; reflexivity.
Qed.

Lemma fmt_d_inj (z z' : Z) : fmt_d z = fmt_d z' -> z = z'.
Proof.
  unfold fmt_d. intros H. apply DecimalZ.to_int_inj.
  assert (Hn : forall n, Z.to_int n <> Decimal.Pos Decimal.Nil /\
                         Z.to_int n <> Decimal.Neg Decimal.Nil).
  { intros [|p|p]; cbn; split; try discriminate;
      intros [= E]; exact (DecimalPos.Unsigned.to_uint_nonnil p E). }
  apply (f_equal NilZero.int_of_string) in H.
  rewrite !NilZero.isi in H by apply Hn. congruence.
Qed.

(** X14.  The text of a query determines the two ids: for one operation
    and one frame, two queries are the same text only if they name the
    same row id and the same column id. *)
Theorem Sprintf_query_inj (operation frame : string)
    (rowID columnID rowID' columnID' : Z) :
  Sprintf_query operation frame rowID columnID =
  Sprintf_query operation frame rowID' columnID' ->
  rowID = rowID' /\ columnID = columnID'.
Proof.
  unfold Sprintf_query. intros H.
  do 4 apply append_inj_l in H.
  apply (split_unique is_num_char) in H;
    [|apply fmt_d_chars|apply fmt_d_chars|reflexivity].
  destruct H as [Hr H]. apply fmt_d_inj in Hr.
  apply (append_inj_l " columnID=") in H.
  apply (split_unique is_num_char) in H;
    [|apply fmt_d_chars|apply fmt_d_chars|reflexivity].
  destruct H as [Hc _]. apply fmt_d_inj in Hc. auto.
Qed.

(** * The further properties on the concrete library and server *)

Lemma Demo_PermuteRange : PermuteRange (L := Demo.lib).
Proof.
  intros N seed rank Hr. cbn. unfold Demo.rotate.
  apply Z.mod_pos_bound. lia.
Qed.

Lemma Demo_always_succeeds :
  always_succeeds Demo.quietWorld ("h" : Client (Library := Demo.lib)).
Proof. intros n ctx i q f. reflexivity. Qed.

Lemma Demo_Matched_row : Matched Demo.rowSampler Demo.rowPerm.
Proof. split; [cbn; unfold Int64.max; lia|reflexivity]. Qed.

Lemma Demo_Matched_col : Matched Demo.colSampler Demo.colPerm.
Proof. split; [cbn; unfold Int64.max; lia|reflexivity]. Qed.

(** X1 on the configuration [cfg4]. *)
Lemma Init_without_hosts_panics_witness :
  valid_operation (Operation Demo.cfg4) /\
  Init Demo.quietWorld [] 1 Demo.cfg4 Demo.boot =
    (Panic "index out of range [0] with length 0",
     after_construction Demo.cfg4 1 Demo.boot).
Proof.
  assert (H : valid_operation (Operation Demo.cfg4)) by (left; reflexivity).
  split; [exact H|].
  exact (proj1 (Init_without_hosts_panics Demo.quietWorld 1 Demo.cfg4
                  Demo.boot H)).
Defined.

(** X2: the object agent 1 initialised, initialised again for agent 1,
    behaves as agent 2. *)
Lemma Init_again_shifts_seed_witness :
  Init Demo.quietWorld ["h"] 1 Demo.cfg4 Demo.boot =
    (Ok (Demo.initA.1.1, Demo.initA.1.2), Demo.initA.2) /\
  Seed Demo.initA.1.1 = 43 /\
  idSequence Demo.initA.1.1 1 = idSequence Demo.cfg4 2.
Proof.
  assert (HA : Init Demo.quietWorld ["h"] 1 Demo.cfg4 Demo.boot =
               (Ok (Demo.initA.1.1, Demo.initA.1.2), Demo.initA.2))
    by reflexivity.
  split; [exact HA|].
  destruct (Init_again_shifts_seed Demo.quietWorld ["h"] 1 1 Demo.cfg4
              Demo.boot _ _ _ HA) as (Hs & _ & Hi).
  split; [exact Hs|exact Hi].
Defined.

(** X4 on agents 1 and 2. *)
Lemma Init_agents_seed_differently_witness :
  Int64.in_range 1 /\ Int64.in_range 2 /\ 1 <> 2 /\
  Init Demo.quietWorld ["h"] 1 Demo.cfg4 Demo.boot =
    (Ok (Demo.initA.1.1, Demo.initA.1.2), Demo.initA.2) /\
  Init Demo.quietWorld ["h"] 2 Demo.cfg4 Demo.initA.2 =
    (Ok (Demo.initSecond.1.1, Demo.initSecond.1.2), Demo.initSecond.2) /\
  Seed Demo.initA.1.1 <> Seed Demo.initSecond.1.1.
Proof.
  assert (R1 : Int64.in_range 1) by (unfold Int64.in_range, Int64.min, Int64.max; lia).
  assert (R2 : Int64.in_range 2) by (unfold Int64.in_range, Int64.min, Int64.max; lia).
  assert (Hne : 1 <> 2) by lia.
  assert (HA : Init Demo.quietWorld ["h"] 1 Demo.cfg4 Demo.boot =
               (Ok (Demo.initA.1.1, Demo.initA.1.2), Demo.initA.2))
    by reflexivity.
  assert (HB : Init Demo.quietWorld ["h"] 2 Demo.cfg4 Demo.initA.2 =
               (Ok (Demo.initSecond.1.1, Demo.initSecond.1.2), Demo.initSecond.2))
    by reflexivity.
  split; [exact R1|]. split; [exact R2|]. split; [exact Hne|].
  split; [exact HA|]. split; [exact HB|].
  exact (proj1 (Init_agents_seed_differently Demo.quietWorld Demo.quietWorld
                  ["h"] ["h"] 1 2 Demo.cfg4 Demo.boot Demo.initA.2
                  _ _ _ _ _ _ R1 R2 Hne HA HB)).
Defined.

(** X5 on agents 1 and 2 of a configuration with equal ranges. *)
Lemma Init_neighbour_agents_share_permutation_witness :
  ProfileIDRange Demo.cfgSquare = BitmapIDRange Demo.cfgSquare /\
  Init Demo.quietWorld ["h"] 1 Demo.cfgSquare Demo.boot =
    (Ok (Demo.initSquare1.1.1, Demo.initSquare1.1.2), Demo.initSquare1.2) /\
  Init Demo.quietWorld ["h"] (1 + 1) Demo.cfgSquare Demo.boot =
    (Ok (Demo.initSquare2.1.1, Demo.initSquare2.1.2), Demo.initSquare2.2) /\
  profilePerm Demo.initSquare1.1.1 = bitmapPerm Demo.initSquare2.1.1.
Proof.
  assert (H1 : Init Demo.quietWorld ["h"] 1 Demo.cfgSquare Demo.boot =
               (Ok (Demo.initSquare1.1.1, Demo.initSquare1.1.2),
                Demo.initSquare1.2)) by reflexivity.
  assert (H2 : Init Demo.quietWorld ["h"] (1 + 1) Demo.cfgSquare Demo.boot =
               (Ok (Demo.initSquare2.1.1, Demo.initSquare2.1.2),
                Demo.initSquare2.2)) by reflexivity.
  split; [reflexivity|]. split; [exact H1|]. split; [exact H2|].
  exact (Init_neighbour_agents_share_permutation Demo.quietWorld
           Demo.quietWorld ["h"] ["h"] 1 Demo.cfgSquare Demo.boot Demo.boot
           _ _ _ _ _ _ eq_refl H1 H2).
Defined.

(** X6 on a row range of zero: the bound asked for is [2^64 - 1]. *)
Lemma Init_nonpositive_range_wraps_witness :
  Int64.min < BitmapIDRange Demo.cfgEmptyRange <= 0 /\
  exists evs,
    extends Demo.boot
      (Init Demo.quietWorld ["h"] 1 Demo.cfgEmptyRange Demo.boot).2 evs /\
    In (EvNewZipf Bitmap 2
          (getZipfOffset (L := Demo.lib) 0 2 0.25) 18446744073709551615) evs.
Proof.
  assert (H : Int64.min < BitmapIDRange Demo.cfgEmptyRange <= 0)
    by (cbn; unfold Int64.min; lia).
  split; [exact H|].
  exact (proj2 (Init_nonpositive_range_wraps Demo.quietWorld ["h"] 1
                  Demo.cfgEmptyRange Demo.boot H)).
Defined.

(** X7 on an object with a client and no generators. *)
Lemma Run_uninitialised_witness :
  client (hasClient Demo.cfgClientOnly) =
    Some ("h" : Client (Library := Demo.lib)) /\
  bitmapRng Demo.cfgClientOnly = None /\
  1 <= Iterations Demo.cfgClientOnly /\
  Run Demo.quietWorld Demo.background Demo.cfgClientOnly Demo.boot =
    (Panic "rand: nil Zipf", Demo.boot).
Proof.
  assert (Hn : 1 <= Iterations Demo.cfgClientOnly) by (cbn; lia).
  split; [reflexivity|]. split; [reflexivity|]. split; [exact Hn|].
  exact (proj1 (Run_uninitialised Demo.quietWorld Demo.background
                  Demo.cfgClientOnly Demo.boot "h" eq_refl eq_refl) Hn).
Defined.

(** X8 on a row exponent of 1. *)
Lemma Init_small_exponent_Run_panics_witness :
  PrimFloat.leb (BitmapExponent Demo.cfgFlat) 1 = true /\
  Init Demo.quietWorld ["h"] 1 Demo.cfgFlat Demo.boot =
    (Ok (Demo.initFlat.1.1, None), Demo.initFlat.2) /\
  client (hasClient Demo.initFlat.1.1) =
    Some ("h" : Client (Library := Demo.lib)) /\
  1 <= Iterations Demo.cfgFlat /\
  Run Demo.quietWorld Demo.background Demo.initFlat.1.1 Demo.initFlat.2 =
    (Panic "rand: nil Zipf", Demo.initFlat.2).
Proof.
  assert (HI : Init Demo.quietWorld ["h"] 1 Demo.cfgFlat Demo.boot =
               (Ok (Demo.initFlat.1.1, None), Demo.initFlat.2)) by reflexivity.
  assert (Hn : 1 <= Iterations Demo.cfgFlat) by (cbn; lia).
  split; [reflexivity|]. split; [exact HI|]. split; [reflexivity|].
  split; [exact Hn|].
  exact (proj2 (Init_small_exponent_Run_panics Demo.quietWorld Demo.quietWorld
                  ["h"] 1 Demo.cfgFlat Demo.boot _ _ _ Demo.background "h"
                  eq_refl HI eq_refl Hn)).
Defined.


(** X10 on a server whose third call fails. *)
Lemma Run_moves_stream_by_calls_witness :
  ZipfContract (L := Demo.lib) /\
  Ready Demo.initA.1.1 Demo.initA.2 Demo.rowSampler Demo.colSampler
        Demo.rowPerm Demo.colPerm (43 : Rand (Library := Demo.lib)) /\
  Matched Demo.rowSampler Demo.rowPerm /\
  Matched Demo.colSampler Demo.colPerm /\
  exists evs,
    extends Demo.initA.2
      (Run Demo.failing3 Demo.background Demo.initA.1.1 Demo.initA.2).2 evs /\
    Ready Demo.initA.1.1
      (Run Demo.failing3 Demo.background Demo.initA.1.1 Demo.initA.2).2
      Demo.rowSampler Demo.colSampler Demo.rowPerm Demo.colPerm
      (advance Demo.rowSampler Demo.colSampler (length (exec_calls evs))
         (43 : Rand (Library := Demo.lib))).
Proof.
  split; [exact Demo_ZipfContract|]. split; [exact Demo_Ready4|].
  split; [exact Demo_Matched_row|]. split; [exact Demo_Matched_col|].
  destruct (Run_moves_stream_by_calls Demo.failing3 Demo.background
              Demo.initA.1.1 Demo.initA.2 _ _ _ _ _ Demo_ZipfContract
              Demo_Ready4 Demo_Matched_row Demo_Matched_col)
    as (evs & Hext & _ & HR).
  exists evs. split; [exact Hext|exact HR].
Defined.

(** X11 on two runs of four iterations. *)
Lemma Run_twice_continues_witness :
  ZipfContract (L := Demo.lib) /\
  Ready Demo.initA.1.1 Demo.initA.2 Demo.rowSampler Demo.colSampler
        Demo.rowPerm Demo.colPerm (43 : Rand (Library := Demo.lib)) /\
  Matched Demo.rowSampler Demo.rowPerm /\
  Matched Demo.colSampler Demo.colPerm /\
  client (hasClient Demo.initA.1.1) =
    Some ("h" : Client (Library := Demo.lib)) /\
  always_succeeds Demo.quietWorld ("h" : Client (Library := Demo.lib)) /\
  exists evs1 evs2,
    extends Demo.initA.2
      (Run Demo.quietWorld Demo.background Demo.initA.1.1 Demo.initA.2).2 evs1 /\
    extends
      (Run Demo.quietWorld Demo.background Demo.initA.1.1 Demo.initA.2).2
      (Run Demo.quietWorld Demo.background Demo.initA.1.1
         (Run Demo.quietWorld Demo.background Demo.initA.1.1 Demo.initA.2).2).2
      evs2 /\
    exec_queries evs1 ++ exec_queries evs2 =
      query_of "SetBit" Demo.initA.1.1 <$>
        permutedRanks Demo.rowSampler Demo.colSampler Demo.rowPerm
          Demo.colPerm (4 + 4) (43 : Rand (Library := Demo.lib)).
Proof.
  split; [exact Demo_ZipfContract|]. split; [exact Demo_Ready4|].
  split; [exact Demo_Matched_row|]. split; [exact Demo_Matched_col|].
  split; [reflexivity|]. split; [exact Demo_always_succeeds|].
  destruct (Run_twice_continues Demo.quietWorld Demo.background
              Demo.initA.1.1 Demo.initA.2 "h" _ _ _ _ _ Demo_ZipfContract
              Demo_Ready4 Demo_Matched_row Demo_Matched_col eq_refl
              Demo_always_succeeds)
    as (evs1 & evs2 & X1 & X2 & _ & _ & Hq).
  exists evs1, evs2. split; [exact X1|]. split; [exact X2|exact Hq].
Defined.

Lemma Demo_Ready_first :
  Ready Demo.initA.1.1 Demo.initSecond.2 Demo.rowSampler Demo.colSampler
        Demo.rowPerm Demo.colPerm (43 : Rand (Library := Demo.lib)).
Proof. repeat split. Qed.

Lemma Demo_Ready_second :
  Ready Demo.initSecond.1.1 Demo.initSecond.2 Demo.secondRowSampler
        Demo.secondColSampler Demo.secondRowPerm Demo.secondColPerm
        (44 : Rand (Library := Demo.lib)).
Proof. repeat split. Qed.

(** X12 on two agents of one process: the run of agent 1 leaves agent 2
    as it was. *)
Lemma Run_leaves_other_streams_witness :
  Ready Demo.initA.1.1 Demo.initSecond.2 Demo.rowSampler Demo.colSampler
        Demo.rowPerm Demo.colPerm (43 : Rand (Library := Demo.lib)) /\
  Ready Demo.initSecond.1.1 Demo.initSecond.2 Demo.secondRowSampler
        Demo.secondColSampler Demo.secondRowPerm Demo.secondColPerm
        (44 : Rand (Library := Demo.lib)) /\
  z_r Demo.secondRowSampler <> z_r Demo.rowSampler /\
  Ready Demo.initSecond.1.1
        (Run Demo.quietWorld Demo.background Demo.initA.1.1 Demo.initSecond.2).2
        Demo.secondRowSampler Demo.secondColSampler Demo.secondRowPerm
        Demo.secondColPerm (44 : Rand (Library := Demo.lib)).
Proof.
  assert (Hne : z_r Demo.secondRowSampler <> z_r Demo.rowSampler)
    by discriminate.
  split; [exact Demo_Ready_first|]. split; [exact Demo_Ready_second|].
  split; [exact Hne|].
  exact (Run_leaves_other_streams Demo.quietWorld Demo.background
           Demo.initA.1.1 Demo.initSecond.1.1 Demo.initSecond.2
           _ _ _ _ _ _ _ _ _ _ Demo_Ready_first Demo_Ready_second Hne).
Defined.

(** X13 on the configuration [cfg4]: rows in [[1000, 1100)], columns in
    [[5000, 5050)]. *)
Lemma Run_ids_in_window_witness :
  PermuteRange (L := Demo.lib) /\ well_typed Demo.cfg4 /\
  BaseBitmapID Demo.cfg4 + BitmapIDRange Demo.cfg4 - 1 <= Int64.max /\
  BaseProfileID Demo.cfg4 + ProfileIDRange Demo.cfg4 - 1 <= Int64.max /\
  Init Demo.quietWorld ["h"] 1 Demo.cfg4 Demo.boot =
    (Ok (Demo.initA.1.1, Demo.initA.1.2), Demo.initA.2) /\
  exists evs ids,
    extends Demo.initA.2
      (Run Demo.quietWorld Demo.background Demo.initA.1.1 Demo.initA.2).2 evs /\
    exec_queries evs = query_text Demo.initA.1.1 <$> ids /\
    Forall (in_window Demo.cfg4) ids.
Proof.
  assert (Hw : well_typed Demo.cfg4)
    by (repeat split; cbn; unfold Int64.min, Int64.max; lia).
  assert (HB : BaseBitmapID Demo.cfg4 + BitmapIDRange Demo.cfg4 - 1 <= Int64.max)
    by (cbn; unfold Int64.max; lia).
  assert (HP : BaseProfileID Demo.cfg4 + ProfileIDRange Demo.cfg4 - 1 <= Int64.max)
    by (cbn; unfold Int64.max; lia).
  assert (HA : Init Demo.quietWorld ["h"] 1 Demo.cfg4 Demo.boot =
               (Ok (Demo.initA.1.1, Demo.initA.1.2), Demo.initA.2))
    by reflexivity.
  split; [exact Demo_PermuteRange|]. split; [exact Hw|]. split; [exact HB|].
  split; [exact HP|]. split; [exact HA|].
  exact (Run_ids_in_window Demo.quietWorld Demo.quietWorld ["h"] 1 Demo.cfg4
           Demo.boot _ _ _ Demo.background Demo_PermuteRange Hw HB HP HA).
Defined.

(** X14 on the example of the specification. *)
Lemma Sprintf_query_inj_witness :
  Sprintf_query "SetBit" "f" 42 7 = Sprintf_query "SetBit" "f" 42 7 /\
  42 = 42 /\ 7 = 7.
Proof.
  split; [reflexivity|].
  exact (Sprintf_query_inj "SetBit" "f" 42 7 42 7 eq_refl).
Defined.
